(** * ChatVertexAI: the chat adapter of [langchain/chat_models/vertexai.py]

    A shallow embedding of the module's three functions -- the history
    parser [_parse_chat_history], the example parser [_parse_examples] and
    the orchestrator [_generate] / [_stream] of class [ChatVertexAI] --
    together with the properties the specification states about them.

    Python exceptions become the [Err] case of [Result]; the calls made on
    the vendor client and on the callback manager are recorded, in order, in
    an event log that is threaded through the orchestrator by a small
    state-and-error monad. *)

From stdpp Require Import base strings list gmap.
From Stdlib Require Import ZArith Lia.

Local Open Scope string_scope.
Local Open Scope list_scope.
Local Open Scope nat_scope.
Local Open Scope stdpp_scope.

(** ** Messages *)

(** Modelled from the spec: the message classes of [langchain.schema.messages],
    which the module imports and dispatches on with [isinstance].  The three
    roles the spec names are separate constructors; [OtherMessage] stands for
    "any other message kind" (its [type] attribute is kept). *)
Inductive BaseMessage : Type :=
| SystemMessage (content : string)
| HumanMessage (content : string)
| AIMessage (content : string)
| OtherMessage (type_ : string) (content : string).

(** The class of a message: what [type(message)] names in an error text and
    what [isinstance] tests.  [OtherMessageClass] names any other class. *)
Inductive MessageClass : Type :=
| SystemMessageClass
| HumanMessageClass
| AIMessageClass
| OtherMessageClass (type_ : string).

Definition type (m : BaseMessage) : MessageClass :=
  match m with
  | SystemMessage _ => SystemMessageClass
  | HumanMessage _ => HumanMessageClass
  | AIMessage _ => AIMessageClass
  | OtherMessage t _ => OtherMessageClass t
  end.

(** [message.content] *)
Definition content (m : BaseMessage) : string :=
  match m with
  | SystemMessage c | HumanMessage c | AIMessage c | OtherMessage _ c => c
  end.

(** [message.type], the role string of a message. *)
Definition type_attr (m : BaseMessage) : string :=
  match m with
  | SystemMessage _ => "system"
  | HumanMessage _ => "human"
  | AIMessage _ => "ai"
  | OtherMessage t _ => t
  end.

Definition isinstance (m : BaseMessage) (c : MessageClass) : bool :=
  match m, c with
  | SystemMessage _, SystemMessageClass => true
  | HumanMessage _, HumanMessageClass => true
  | AIMessage _, AIMessageClass => true
  | _, _ => false
  end.

(** ** Vendor-side values *)

(** [vertexai.language_models.ChatMessage(content=..., author=...)] *)
Record ChatMessage : Type := mkChatMessage
  { cm_content : string; cm_author : string }.

(** [_ChatHistory]: a context and a history of messages. *)
Record _ChatHistory : Type := mk_ChatHistory
  { history : list ChatMessage; context : option string }.

(** [InputOutputTextPair(input_text=..., output_text=...)].  The source
    initialises [input_text] to [None], so the field is optional. *)
Record InputOutputTextPair : Type := mkInputOutputTextPair
  { input_text : option string; output_text : string }.

(** ** Errors *)

(** Every failure the module raises itself is a [ValueError]; the
    constructors separate the raise sites and carry what each message
    interpolates.  [TypeError] is raised by Python, not by the module: by a
    call that repeats a keyword and by [len] on a value without a length.
    [ClientError] is a failure of the vendor client, passed on unchanged. *)
Inductive Error : Type :=
| EmptyConversation
| InvalidLastMessage (actual : string)
| InvalidMessageSequence (actual : MessageClass) (position : nat)
| InvalidExampleCount (count : nat)
| InvalidExampleRole (expected actual : MessageClass) (position : nat)
| TypeError (reason : string)
| ClientError (reason : string).

Inductive Result (A : Type) : Type :=
| Ok (a : A)
| Err (e : Error).
Arguments Ok {A} a.
Arguments Err {A} e.

(** ** The history parser *)

(** The [for i, message in enumerate(history)] loop of [_parse_chat_history],
    with the loop index and the two local variables as arguments. *)
Fixpoint _parse_chat_history_loop (i : nat) (messages : list BaseMessage)
    (vertex_messages : list ChatMessage) (context : option string)
    : Result _ChatHistory :=
  match messages with
  | [] => Ok {| history := vertex_messages; context := context |}
  | message :: rest =>
      if (i =? 0) && isinstance message SystemMessageClass then
        _parse_chat_history_loop (S i) rest vertex_messages (Some (content message))
      else if isinstance message AIMessageClass then
        let vertex_message := mkChatMessage (content message) "bot" in
        _parse_chat_history_loop (S i) rest
          (vertex_messages ++ [vertex_message]) context
      else if isinstance message HumanMessageClass then
        let vertex_message := mkChatMessage (content message) "user" in
        _parse_chat_history_loop (S i) rest
          (vertex_messages ++ [vertex_message]) context
      else
        Err (InvalidMessageSequence (type message) i)
  end.

Definition _parse_chat_history (history : list BaseMessage) : Result _ChatHistory :=
  _parse_chat_history_loop 0 history [] None.

(** ** The example parser *)

(** The loop of [_parse_examples]: both [if] statements of the body are
    tested in turn, as in the source. *)
Fixpoint _parse_examples_loop (i : nat) (examples : list BaseMessage)
    (example_pairs : list InputOutputTextPair) (input_text : option string)
    : Result (list InputOutputTextPair) :=
  match examples with
  | [] => Ok example_pairs
  | example :: rest =>
      let after_first :=
        if i mod 2 =? 0 then
          if negb (isinstance example HumanMessageClass) then
            Err (InvalidExampleRole HumanMessageClass (type example) i)
          else Ok (Some (content example))
        else Ok input_text in
      match after_first with
      | Err e => Err e
      | Ok input_text =>
          if i mod 2 =? 1 then
            if negb (isinstance example AIMessageClass) then
              Err (InvalidExampleRole AIMessageClass (type example) i)
            else
              let pair := mkInputOutputTextPair input_text (content example) in
              _parse_examples_loop (S i) rest (example_pairs ++ [pair]) input_text
          else _parse_examples_loop (S i) rest example_pairs input_text
      end
  end.

Definition _parse_examples (examples : list BaseMessage)
    : Result (list InputOutputTextPair) :=
  if negb (length examples mod 2 =? 0) then
    Err (InvalidExampleCount (length examples))
  else _parse_examples_loop 0 examples [] None.

(** ** Call-time options *)

(** The values a keyword option can hold.  [VMessages] is the raw
    [examples] list a caller passes, [VPairs] its parsed form. *)
Inductive Value : Type :=
| VNone
| VBool (b : bool)
| VInt (n : Z)
| VStr (s : string)
| VMessages (l : list BaseMessage)
| VPairs (l : list InputOutputTextPair).

(** Python's truth value of an option value. *)
Definition truthy (v : Value) : bool :=
  match v with
  | VNone => false
  | VBool b => b
  | VInt n => negb (n =? 0)%Z
  | VStr s => negb (String.eqb s "")
  | VMessages l => negb (length l =? 0)
  | VPairs l => negb (length l =? 0)
  end.

(** Keyword dictionaries: [self._default_params], [kwargs], [params]. *)
Abbreviation Params := (gmap string Value).

(** [{**defaults, **kwargs}]: on a key collision the call-time value wins. *)
Definition merge_params (defaults kwargs : Params) : Params := kwargs ∪ defaults.

(** [_parse_examples] on a value with a length whose elements are not
    messages (the characters of a string, parsed pairs): the count test
    comes first, and the first element then fails the role test at offset
    0 with its own class. *)
Definition _parse_examples_of_others (class : string) (count : nat)
    : Result (list InputOutputTextPair) :=
  if negb (count mod 2 =? 0) then Err (InvalidExampleCount count)
  else if count =? 0 then Ok []
  else Err (InvalidExampleRole HumanMessageClass (OtherMessageClass class) 0).

(** [_parse_examples] on an option value.  The parameter is annotated
    [List[BaseMessage]], which Python does not enforce: on another value
    the body runs as far as it gets, and [len] raises [TypeError] on a
    value without a length. *)
Definition _parse_examples_arg (examples : Value) : Result (list InputOutputTextPair) :=
  match examples with
  | VMessages l => _parse_examples l
  | VStr s => _parse_examples_of_others "str" (String.length s)
  | VPairs l => _parse_examples_of_others "InputOutputTextPair" (length l)
  | VNone | VBool _ | VInt _ => Err (TypeError "len")
  end.

(** A call [f(k=v, **params)]: when [params] holds a keyword that the call
    also writes out, Python raises [TypeError] at the call and [f] is not
    entered. *)
Definition repeats_keyword (written : list string) (params : Params) : bool :=
  existsb (λ k, bool_decide (is_Some (params !! k))) written.

(** ** The vendor client *)

Record TextGenerationResponse : Type := mkResponse { text : string }.

(** A streamed answer: the responses its iterator yields, in order, and
    how it ends, normally ([None]) or by raising in place of a further
    response. *)
Record ResponseStream : Type := mkResponseStream
  { stream_responses : list TextGenerationResponse;
    stream_failure : option Error }.

(** A chat session, as returned by [start_chat]: [send_message] answers
    with a response or fails; [send_message_streaming] fails at the call
    or answers with a stream, which may still fail while it is read.
    Whether an operation accepts the keywords it is handed is part of the
    client's answer. *)
Record ChatSession : Type := mkChatSession
  { send_message : string → Params → Result TextGenerationResponse;
    send_message_streaming : string → Params → Result ResponseStream }.

(** The client object.  [start_chat] receives the [context] keyword as the
    call writes it out ([None] when the call does not write it, [Some c]
    when it writes it with the Python value [c]), the message history and
    the keywords spread from the parameters, which hold no keyword the
    call writes out. *)
Record ChatModel : Type := mkChatModel
  { start_chat : option (option string) → list ChatMessage → Params → Result ChatSession }.

(** What the orchestrator does to the outside world, in order. *)
Inductive Event : Type :=
| start_chat_call (context : option (option string))
    (message_history : list ChatMessage) (params : Params)
| send_message_call (message : string) (kwargs : Params)
| send_message_streaming_call (message : string) (kwargs : Params)
| on_llm_new_token (token : string).

(** ** The state-and-error monad of the orchestrator *)

Definition M (A : Type) : Type := list Event → Result A * list Event.

Definition ret {A : Type} (a : A) : M A := λ log, (Ok a, log).

Definition raise {A : Type} (e : Error) : M A := λ log, (Err e, log).

Definition bind {A B : Type} (m : M A) (k : A → M B) : M B :=
  λ log, match m log with
         | (Ok a, log') => k a log'
         | (Err e, log') => (Err e, log')
         end.

(** A pure computation that may fail. *)
Definition lift {A : Type} (r : Result A) : M A := λ log, (r, log).

(** An operation on the outside world: it is logged, then it answers. *)
Definition perform {A : Type} (ev : Event) (answer : Result A) : M A :=
  λ log, (answer, log ++ [ev]).

Notation "x <- m ;; k" := (bind m (λ x, k))
  (at level 100, m at next level, right associativity,
   format "'[v' x  <-  m  ;;  '/' k ']'").

(** A call on the client that writes out the keywords [written] and
    spreads [params] behind them: Python refuses it when [params] repeats
    a written keyword, and otherwise the call is made. *)
Definition call_with_keywords {A : Type} (written : list string) (params : Params)
    (ev : Event) (answer : Result A) : M A :=
  if repeats_keyword written params then raise (TypeError "repeated keyword")
  else perform ev answer.

(** Running a computation from an empty log. *)
Definition run {A : Type} (m : M A) : Result A * list Event := m [].

(** ** Results *)

Inductive BaseMessageChunk : Type :=
| AIMessageChunk (content : string).

(** A generation of a [ChatResult]: [ChatGeneration(message=...)] or its
    incremental form [ChatGenerationChunk(message=...)]. *)
Inductive Generation : Type :=
| ChatGeneration (message : BaseMessage)
| ChatGenerationChunk (message : BaseMessageChunk).

Record ChatResult : Type := mkChatResult { generations : list Generation }.

Definition generation_text (g : Generation) : string :=
  match g with
  | ChatGeneration m => content m
  | ChatGenerationChunk (AIMessageChunk c) => c
  end.

(** ** Stop words *)

(** Modelled from the spec: stop-word truncation, which the class inherits
    ([_enforce_stop_words]).  The first occurrence of any configured stop
    string truncates the text at that point. *)
Fixpoint truncate_at_stop (stop : list string) (text : string) : string :=
  if existsb (λ w, String.prefix w text) stop then ""
  else match text with
       | EmptyString => ""
       | String c rest => String c (truncate_at_stop stop rest)
       end.

Definition _enforce_stop_words (text : string) (stop : option (list string)) : string :=
  match stop with
  | Some (w :: ws) => truncate_at_stop (w :: ws) text
  | _ => text
  end.

(** ** The orchestrator *)

Inductive CallbackManagerForLLMRun : Type := callback_manager.

(** An instance of [ChatVertexAI].  [is_codey_model] and [_default_params]
    are inherited properties, taken as given. *)
Record ChatVertexAI : Type := mkChatVertexAI
  { model_name : string;
    streaming : option bool;
    is_codey_model : bool;
    _default_params : Params;
    client : ChatModel }.

(** Truth value of an [Optional[bool]]. *)
Definition flag_set (b : option bool) : bool := default false b.

(** Truth value of an [Optional[str]]. *)
Definition str_set (s : option string) : bool :=
  match s with
  | Some (String _ _) => true
  | _ => false
  end.

(** The [for response in responses] loop of [_stream] over the responses
    the stream still holds and the way it ends; the chunks it yields are
    collected in order. *)
Fixpoint _stream_loop (stop : option (list string))
    (run_manager : option CallbackManagerForLLMRun)
    (responses : list TextGenerationResponse) (failure : option Error)
    : M (list Generation) :=
  match responses with
  | [] => if failure is Some e then raise e else ret []
  | response :: rest =>
      let text_ := _enforce_stop_words (text response) stop in
      _ <- (if run_manager is Some _
            then perform (on_llm_new_token text_) (Ok tt) else ret tt) ;;
      chunks <- _stream_loop stop run_manager rest failure ;;
      ret (ChatGenerationChunk (AIMessageChunk text_) :: chunks)
  end.

(** [_stream], a generator: nothing of its body runs before the iterator
    is first advanced.  The computation below is the body run to
    exhaustion, as [list(...)] or a [for] loop over it does.  When the
    stream fails while it is read the run ends in that failure; the
    tokens reported until then are in the log. *)
Definition _stream (self : ChatVertexAI) (messages : list BaseMessage)
    (stop : option (list string)) (run_manager : option CallbackManagerForLLMRun)
    (kwargs : Params) : M (list Generation) :=
  match last messages with
  | None => raise EmptyConversation
  | Some question =>
      if negb (isinstance question HumanMessageClass) then
        raise (InvalidLastMessage (type_attr question))
      else
        history_ <- lift (_parse_chat_history (removelast messages)) ;;
        let context_ := if str_set (context history_) then context history_ else None in
        let params := merge_params (_default_params self) kwargs in
        let examples := default VNone (kwargs !! "examples") in
        params <- (if truthy examples then
                     pairs <- lift (_parse_examples_arg examples) ;;
                     ret (<["examples" := VPairs pairs]> params)
                   else ret params) ;;
        chat <- (if negb (is_codey_model self) then
                   call_with_keywords ["context"; "message_history"] params
                     (start_chat_call (Some context_) (history history_) params)
                     (start_chat (client self) (Some context_) (history history_) params)
                 else
                   call_with_keywords ["message_history"] params
                     (start_chat_call None (history history_) params)
                     (start_chat (client self) None (history history_) params)) ;;
        responses <- perform (send_message_streaming_call (content question) params)
                       (send_message_streaming chat (content question) params) ;;
        _stream_loop stop run_manager
          (stream_responses responses) (stream_failure responses)
  end.

Definition _generate (self : ChatVertexAI) (messages : list BaseMessage)
    (stop : option (list string)) (run_manager : option CallbackManagerForLLMRun)
    (stream : option bool) (kwargs : Params) : M ChatResult :=
  if (if stream is Some s then s else flag_set (streaming self)) then
    chunks <- _stream self messages stop run_manager kwargs ;;
    ret (mkChatResult chunks)
  else
    match last messages with
    | None => raise EmptyConversation
    | Some question =>
        if negb (isinstance question HumanMessageClass) then
          raise (InvalidLastMessage (type_attr question))
        else
          history_ <- lift (_parse_chat_history (removelast messages)) ;;
          let context_ := if str_set (context history_) then context history_ else None in
          let params := merge_params (_default_params self) kwargs in
          let examples := default VNone (kwargs !! "examples") in
          params <- (if truthy examples then
                       pairs <- lift (_parse_examples_arg examples) ;;
                       ret (<["examples" := VPairs pairs]> params)
                     else ret params) ;;
          chat <- (if negb (is_codey_model self) then
                     call_with_keywords ["context"; "message_history"] params
                       (start_chat_call (Some context_) (history history_) params)
                       (start_chat (client self) (Some context_) (history history_) params)
                   else
                     call_with_keywords ["message_history"] params
                       (start_chat_call None (history history_) params)
                       (start_chat (client self) None (history history_) params)) ;;
          response <- perform (send_message_call (content question) ∅)
                        (send_message chat (content question) ∅) ;;
          let text_ := _enforce_stop_words (text response) stop in
          ret (mkChatResult [ChatGeneration (AIMessage text_)])
    end.

(** The signature default [stream: Optional[bool] = False]: the value the
    parameter takes when the caller passes no [stream] keyword. *)
Definition stream_default : option bool := Some false.

(** A call of [_generate] in which the [stream] keyword is absent ([None])
    or passed with a value. *)
Definition _generate_call (self : ChatVertexAI) (messages : list BaseMessage)
    (stop : option (list string)) (run_manager : option CallbackManagerForLLMRun)
    (stream_kw : option (option bool)) (kwargs : Params) : M ChatResult :=
  _generate self messages stop run_manager (default stream_default stream_kw) kwargs.

(** ** Reference functions and scenario data *)

(** The messages the history parser turns into vendor turns. *)
Definition is_turn (m : BaseMessage) : bool :=
  isinstance m AIMessageClass || isinstance m HumanMessageClass.

(** The vendor turn of an [ai] or [human] message. *)
Definition turn (m : BaseMessage) : ChatMessage :=
  mkChatMessage (content m) (if isinstance m AIMessageClass then "bot" else "user").

(** The class the example parser expects at offset [i]. *)
Definition expected_class (i : nat) : MessageClass :=
  if i mod 2 =? 0 then HumanMessageClass else AIMessageClass.

(** Consecutive messages taken two at a time. *)
Fixpoint pair_up (l : list BaseMessage) : list InputOutputTextPair :=
  match l with
  | h :: a :: rest => mkInputOutputTextPair (Some (content h)) (content a) :: pair_up rest
  | _ => []
  end.

(** The effective streaming flag of a [_generate] call (line 141). *)
Definition should_stream (self : ChatVertexAI) (stream : option bool) : bool :=
  if stream is Some s then s else flag_set (streaming self).

(** The context handed to the session (lines 155 and 187). *)
Definition session_context (h : _ChatHistory) : option string :=
  if str_set (context h) then context h else None.

(** The [context] keyword of the [start_chat] call (lines 160-165). *)
Definition context_keyword (self : ChatVertexAI) (h : _ChatHistory)
    : option (option string) :=
  if negb (is_codey_model self) then Some (session_context h) else None.

(** The keywords the [start_chat] call writes out (lines 161-165). *)
Definition written_keywords (self : ChatVertexAI) : list string :=
  if negb (is_codey_model self) then ["context"; "message_history"]
  else ["message_history"].

(** The parameters [start_chat] is entered with (lines 156-165): the merge
    of defaults and options with the examples parsed, unless the examples
    are rejected or the parameters repeat a keyword of the call. *)
Definition call_params (self : ChatVertexAI) (kwargs : Params) : Result Params :=
  let params := merge_params (_default_params self) kwargs in
  let examples := default VNone (kwargs !! "examples") in
  let spread (params : Params) : Result Params :=
    if repeats_keyword (written_keywords self) params
    then Err (TypeError "repeated keyword") else Ok params in
  if truthy examples then
    match _parse_examples_arg examples with
    | Ok pairs => spread (<["examples" := VPairs pairs]> params)
    | Err e => Err e
    end
  else spread params.

(** The chunk [_stream] yields for a response, and the token it reports. *)
Definition chunk_of (stop : option (list string)) (response : TextGenerationResponse)
    : Generation :=
  ChatGenerationChunk (AIMessageChunk (_enforce_stop_words (text response) stop)).

(** What reading a stream to its end gives: its failure, or the chunks. *)
Definition stream_outcome (stop : option (list string)) (answer : ResponseStream)
    : Result (list Generation) :=
  if stream_failure answer is Some e then Err e
  else Ok (chunk_of stop <$> stream_responses answer).

Definition token_events (stop : option (list string))
    (run_manager : option CallbackManagerForLLMRun)
    (responses : list TextGenerationResponse) : list Event :=
  if run_manager is Some _
  then (λ r, on_llm_new_token (_enforce_stop_words (text r) stop)) <$> responses
  else [].

(** A client that answers every message with [reply] and streams [parts]. *)
Definition scripted_session (reply : string) (parts : list string) : ChatSession :=
  {| send_message := λ _ _, Ok (mkResponse reply);
     send_message_streaming := λ _ _,
       Ok {| stream_responses := mkResponse <$> parts; stream_failure := None |} |}.

Definition scripted_client (reply : string) (parts : list string) : ChatModel :=
  {| start_chat := λ _ _ _, Ok (scripted_session reply parts) |}.

Definition scripted_model (streaming : option bool) (codey : bool)
    (reply : string) (parts : list string) : ChatVertexAI :=
  {| model_name := if codey then "codechat-bison" else "chat-bison";
     streaming := streaming;
     is_codey_model := codey;
     _default_params := {[ "max_output_tokens" := VInt 128 ]};
     client := scripted_client reply parts |}.

Definition terse_conversation : list BaseMessage :=
  [SystemMessage "You are terse"; HumanMessage "Hi"; AIMessage "Hello";
   HumanMessage "How are you?"].

(** What follows the opening of the session in the log of [_generate]:
    nothing when the client refused it, and otherwise the send of the
    question, with the tokens reported on the streaming path. *)
Definition after_opening (self : ChatVertexAI) (stop : option (list string))
    (run_manager : option CallbackManagerForLLMRun) (stream : option bool)
    (question : string) (params : Params) (opened : Result ChatSession)
    : list Event :=
  match opened with
  | Err _ => []
  | Ok chat =>
      if should_stream self stream then
        send_message_streaming_call question params
        :: match send_message_streaming chat question params with
           | Ok answer => token_events stop run_manager (stream_responses answer)
           | Err _ => []
           end
      else [send_message_call question ∅]
  end.

(** ** Readings of a conversation and of a log *)

(** The content of a leading system message, and the messages behind it. *)
Definition leading_context (l : list BaseMessage) : option string :=
  match l with
  | SystemMessage c :: _ => Some c
  | _ => None
  end.

Definition after_context (l : list BaseMessage) : list BaseMessage :=
  match l with
  | SystemMessage _ :: rest => rest
  | _ => l
  end.

(** A message the history parser accepts at index [i]. *)
Definition accepted_at (i : nat) (m : BaseMessage) : bool :=
  is_turn m || ((i =? 0) && isinstance m SystemMessageClass).

(** The tokens reported to the callback manager, in order. *)
Definition reported_tokens (log : list Event) : list string :=
  omap (λ ev, if ev is on_llm_new_token t then Some t else None) log.

Definition is_start_chat (ev : Event) : bool :=
  if ev is start_chat_call _ _ _ then true else false.

Definition is_send (ev : Event) : bool :=
  match ev with
  | send_message_call _ _ | send_message_streaming_call _ _ => true
  | _ => false
  end.

Definition count_events (p : Event → bool) (log : list Event) : nat :=
  length (List.filter p log).

(** A client whose [start_chat] fails, and one whose sessions fail. *)
Definition refusing_client (reason : string) : ChatModel :=
  {| start_chat := λ _ _ _, Err (ClientError reason) |}.

Definition refusing_model (reason : string) : ChatVertexAI :=
  {| model_name := "chat-bison";
     streaming := None;
     is_codey_model := false;
     _default_params := ∅;
     client := refusing_client reason |}.

(** A model whose sessions open but fail on every message. *)
Definition broken_session_model (reason : string) : ChatVertexAI :=
  {| model_name := "chat-bison";
     streaming := None;
     is_codey_model := false;
     _default_params := ∅;
     client :=
       {| start_chat := λ _ _ _,
            Ok {| send_message := λ _ _, Err (ClientError reason);
                  send_message_streaming := λ _ _, Err (ClientError reason) |} |} |}.

(** A model whose streams yield [parts] and then fail. *)
Definition interrupted_stream_model (parts : list string) (reason : string)
    : ChatVertexAI :=
  {| model_name := "chat-bison";
     streaming := None;
     is_codey_model := false;
     _default_params := ∅;
     client :=
       {| start_chat := λ _ _ _,
            Ok {| send_message := λ _ _, Err (ClientError reason);
                  send_message_streaming := λ _ _,
                    Ok {| stream_responses := mkResponse <$> parts;
                          stream_failure := Some (ClientError reason) |} |} |} |}.


(** * Properties *)

(** ** Scenario checks *)

Example parse_history_scenario :
  _parse_chat_history
    [SystemMessage "You are terse"; HumanMessage "Hi"; AIMessage "Hello"]
  = Ok {| history := [mkChatMessage "Hi" "user"; mkChatMessage "Hello" "bot"];
          context := Some "You are terse" |}.
Proof. reflexivity. Qed.

Example parse_examples_scenario :
  _parse_examples [HumanMessage "2+2"; AIMessage "4"]
  = Ok [mkInputOutputTextPair (Some "2+2") "4"].
Proof. reflexivity. Qed.

Example stop_word_scenario :
  _enforce_stop_words "Hello world, goodbye" (Some ["goodbye"]) = "Hello world, ".
Proof. reflexivity. Qed.

(** ** The history parser *)

Section history_parser.
Implicit Types (l pre suf : list BaseMessage) (m : BaseMessage).
Implicit Types (acc : list ChatMessage) (ctx : option string).

Lemma is_turn_not_system m :
  is_turn m = true → isinstance m SystemMessageClass = false.
Proof. by destruct m. Qed.

(** One step of the loop on a turn message, at any index. *)
Lemma history_loop_turn i m rest acc ctx :
  is_turn m = true →
  _parse_chat_history_loop i (m :: rest) acc ctx
  = _parse_chat_history_loop (S i) rest (acc ++ [turn m]) ctx.
Proof.
  intros Hm. destruct m; try discriminate; simpl;
    by rewrite andb_false_r.
Qed.

(** On turn messages only, the loop appends their turns in order. *)
Lemma history_loop_turns l : ∀ i acc ctx,
  Forall (λ m, is_turn m = true) l →
  _parse_chat_history_loop i l acc ctx
  = Ok {| history := acc ++ (turn <$> l); context := ctx |}.
Proof.
  induction l as [|m rest IH]; intros i acc ctx Hl.
  - simpl. by rewrite app_nil_r.
  - apply Forall_cons in Hl as [Hm Hrest].
    rewrite history_loop_turn by done.
    rewrite IH by done. simpl. by rewrite <- app_assoc.
Qed.

(** A prefix the loop accepts only moves the index and the state. *)
Lemma history_loop_app pre : ∀ suf i acc ctx h,
  _parse_chat_history_loop i pre acc ctx = Ok h →
  _parse_chat_history_loop i (pre ++ suf) acc ctx
  = _parse_chat_history_loop (i + length pre) suf (history h) (context h).
Proof.
  induction pre as [|m rest IH]; intros suf i acc ctx h Hpre; simpl in *.
  - injection Hpre as <-. simpl. by rewrite Nat.add_0_r.
  - rewrite <- Nat.add_succ_comm.
    destruct ((i =? 0) && isinstance m SystemMessageClass); [by apply IH|].
    destruct (isinstance m AIMessageClass); [by apply IH|].
    destruct (isinstance m HumanMessageClass); [by apply IH|].
    discriminate.
Qed.

(** Past index 0 the loop accepts turn messages only. *)
Lemma history_loop_accepts_turns l : ∀ i acc ctx h,
  0 < i →
  _parse_chat_history_loop i l acc ctx = Ok h →
  Forall (λ m, is_turn m = true) l.
Proof.
  induction l as [|m rest IH]; intros i acc ctx h Hi Hh; [constructor|].
  destruct i as [|i]; [lia|]. simpl in Hh.
  destruct (isinstance m AIMessageClass) eqn:Hai.
  { constructor; [unfold is_turn; by rewrite Hai|].
    eapply (IH (S (S i))); [lia|done]. }
  destruct (isinstance m HumanMessageClass) eqn:Hhuman; [|done].
  constructor; [unfold is_turn; by rewrite Hai, Hhuman|].
  eapply (IH (S (S i))); [lia|done].
Qed.

(** A leading system message followed by turn messages. *)
Lemma history_system_then_turns c l :
  Forall (λ m, is_turn m = true) l →
  _parse_chat_history (SystemMessage c :: l)
  = Ok {| history := turn <$> l; context := Some c |}.
Proof. intros Hl. unfold _parse_chat_history. simpl. by rewrite history_loop_turns. Qed.

Lemma history_turns_only l :
  Forall (λ m, is_turn m = true) l →
  _parse_chat_history l = Ok {| history := turn <$> l; context := None |}.
Proof. intros Hl. unfold _parse_chat_history. by rewrite history_loop_turns. Qed.

(** Past index 0 the loop does not depend on the index, except in the
    position an error reports. *)
Lemma history_loop_shift l : ∀ i j acc ctx ctx',
  0 < i → 0 < j →
  match _parse_chat_history_loop i l acc ctx,
        _parse_chat_history_loop j l acc ctx' with
  | Ok h, Ok h' => history h = history h' ∧ context h = ctx ∧ context h' = ctx'
  | Err _, Err _ => True
  | _, _ => False
  end.
Proof.
  induction l as [|m rest IH]; intros i j acc ctx ctx' Hi Hj; simpl.
  - done.
  - destruct i as [|i]; [lia|]. destruct j as [|j]; [lia|]. simpl.
    destruct (isinstance m AIMessageClass); [apply IH; lia|].
    destruct (isinstance m HumanMessageClass); [apply IH; lia|].
    done.
Qed.
End history_parser.

Section history_claims.
Implicit Types (l : list BaseMessage) (m : BaseMessage).

Lemma Forall_removelast {A : Type} (P : A → Prop) (l : list A) :
  Forall P l → Forall P (removelast l).
Proof.
  induction 1 as [|x l Hx Hl IH]; simpl; [constructor|].
  destruct l; [constructor|]. by constructor.
Qed.

(** A list that is a system message or a turn at index 0 and turns
    everywhere else is accepted. *)
Lemma history_accepts l :
  (∀ j m, l !! j = Some m →
     is_turn m = true ∨ (j = 0 ∧ isinstance m SystemMessageClass = true)) →
  ∃ h, _parse_chat_history l = Ok h.
Proof.
  intros Hl. destruct l as [|x rest]; [by eexists|].
  assert (Forall (λ m, is_turn m = true) rest) as Hrest.
  { apply Forall_lookup. intros j m Hj.
    destruct (Hl (S j) m Hj) as [?|[? _]]; [done|lia]. }
  destruct (Hl 0 x eq_refl) as [Hx|[_ Hx]].
  - eexists. apply history_turns_only. by constructor.
  - destruct x; try discriminate. eexists. by apply history_system_then_turns.
Qed.

(** C5: a non-empty conversation of system, human and ai messages that
    ends in a human message and has a system message at index 0 only:
    the history parser, applied to all messages but the last as the
    orchestrator does, returns a history and raises nothing. *)
Theorem history_of_valid_conversation_parses (messages : list BaseMessage) :
  messages ≠ [] →
  Forall (λ m, isinstance m SystemMessageClass || isinstance m HumanMessageClass
               || isinstance m AIMessageClass = true) messages →
  (∃ q, last messages = Some (HumanMessage q)) →
  (∀ i m, messages !! i = Some m → isinstance m SystemMessageClass = true → i = 0) →
  ∃ h, _parse_chat_history (removelast messages) = Ok h.
Proof.
  intros _ Hkinds _ Hsys.
  destruct messages as [|x rest]; [by eexists|].
  apply Forall_cons in Hkinds as [Hx Hkinds].
  assert (Forall (λ m, is_turn m = true) rest) as Hrest.
  { apply Forall_lookup. intros j m Hj.
    pose proof (proj1 (Forall_lookup _ _) Hkinds j m Hj) as Hm. simpl in Hm.
    specialize (Hsys (S j) m Hj). unfold is_turn.
    destruct (isinstance m SystemMessageClass); [by specialize (Hsys eq_refl)|].
    simpl in Hm. by rewrite orb_comm. }
  simpl. destruct rest as [|y rest']; [by eexists|].
  apply Forall_removelast in Hrest.
  destruct x; try discriminate.
  - eexists. by apply history_system_then_turns.
  - eexists. apply history_turns_only. by constructor.
  - eexists. apply history_turns_only. by constructor.
Qed.

Lemma history_of_valid_conversation_parses_witness :
  ∃ h, _parse_chat_history (removelast terse_conversation) = Ok h.
Proof.
  apply (history_of_valid_conversation_parses terse_conversation).
  - discriminate.
  - repeat constructor.
  - by eexists.
  - intros [|[|[|[|i]]]] m Hm; simpl in Hm; by inversion Hm.
Defined.

(** C6: a system message at an index greater than zero, behind a prefix
    the parser accepts, makes the parser fail with the error that names
    that index and the class of the message. *)
Theorem misplaced_system_message_rejected l (i : nat) (c : string) :
  0 < i →
  l !! i = Some (SystemMessage c) →
  (∀ j m, j < i → l !! j = Some m →
     is_turn m = true ∨ (j = 0 ∧ isinstance m SystemMessageClass = true)) →
  _parse_chat_history l
  = Err (InvalidMessageSequence (type (SystemMessage c)) i).
Proof.
  intros Hi Hlook Hpre.
  pose proof (lookup_lt_Some _ _ _ Hlook) as Hlen.
  rewrite <- (take_drop_middle l i _ Hlook).
  destruct (history_accepts (take i l)) as [h Hh].
  { intros j m Hj. pose proof (lookup_lt_Some _ _ _ Hj) as Hjlen.
    rewrite length_take in Hjlen.
    rewrite lookup_take_lt in Hj by lia. apply Hpre; [lia|done]. }
  unfold _parse_chat_history in *.
  rewrite (history_loop_app _ _ _ _ _ _ Hh).
  rewrite length_take, Nat.min_l by lia. simpl.
  destruct i; [lia|done].
Qed.

Lemma misplaced_system_message_rejected_witness :
  _parse_chat_history [SystemMessage "a"; HumanMessage "b"; SystemMessage "c"; AIMessage "d"]
  = Err (InvalidMessageSequence SystemMessageClass 2).
Proof.
  apply (misplaced_system_message_rejected _ 2 "c"); [lia|done|].
  intros [|[|j]] m Hj Hm; simpl in Hm; [inversion Hm; by right|inversion Hm; by left|lia].
Defined.
End history_claims.

(** ** The example parser *)

Section example_parser.
Implicit Types (l : list BaseMessage) (m : BaseMessage).
Implicit Types (acc : list InputOutputTextPair) (it : option string).

Lemma parity_cases (i : nat) : i mod 2 = 0 ∨ i mod 2 = 1.
Proof. pose proof (Nat.mod_upper_bound i 2). lia. Qed.

Lemma parity_succ (i : nat) : i mod 2 = 0 → S i mod 2 = 1.
Proof.
  intros Hi. replace (S i) with (1 + i) by lia.
  rewrite Nat.Div0.add_mod, Hi. reflexivity.
Qed.

Lemma parity_succ_odd (i : nat) : i mod 2 = 1 → S i mod 2 = 0.
Proof.
  intros Hi. replace (S i) with (1 + i) by lia.
  rewrite Nat.Div0.add_mod, Hi. reflexivity.
Qed.

(** One step of the loop at an even and at an odd index. *)
Lemma examples_loop_even i m rest acc it :
  i mod 2 = 0 →
  _parse_examples_loop i (m :: rest) acc it
  = if isinstance m HumanMessageClass
    then _parse_examples_loop (S i) rest acc (Some (content m))
    else Err (InvalidExampleRole HumanMessageClass (type m) i).
Proof.
  intros Hi. cbn [_parse_examples_loop]. rewrite Hi. cbn [Nat.eqb].
  by destruct (isinstance m _).
Qed.

Lemma examples_loop_odd i m rest acc it :
  i mod 2 = 1 →
  _parse_examples_loop i (m :: rest) acc it
  = if isinstance m AIMessageClass
    then _parse_examples_loop (S i) rest
           (acc ++ [mkInputOutputTextPair it (content m)]) it
    else Err (InvalidExampleRole AIMessageClass (type m) i).
Proof.
  intros Hi. cbn [_parse_examples_loop]. rewrite Hi. cbn [Nat.eqb].
  by destruct (isinstance m _).
Qed.

(** What the loop returns: success when every element has the class
    expected at its offset, and otherwise the role error of the first
    element that has not. *)
Lemma examples_loop_spec l : ∀ i acc it,
  match _parse_examples_loop i l acc it with
  | Ok _ => ∀ j m, l !! j = Some m → isinstance m (expected_class (i + j)) = true
  | Err e =>
      ∃ j m, l !! j = Some m
        ∧ isinstance m (expected_class (i + j)) = false
        ∧ e = InvalidExampleRole (expected_class (i + j)) (type m) (i + j)
        ∧ ∀ j' m', j' < j → l !! j' = Some m' →
            isinstance m' (expected_class (i + j')) = true
  end.
Proof.
  induction l as [|m rest IH]; intros i acc it.
  - simpl. by intros j m.
  - assert (∀ acc' it',
      isinstance m (expected_class i) = true →
      match _parse_examples_loop (S i) rest acc' it' with
      | Ok _ => ∀ j m0, (m :: rest) !! j = Some m0 →
                  isinstance m0 (expected_class (i + j)) = true
      | Err e =>
          ∃ j m0, (m :: rest) !! j = Some m0
            ∧ isinstance m0 (expected_class (i + j)) = false
            ∧ e = InvalidExampleRole (expected_class (i + j)) (type m0) (i + j)
            ∧ ∀ j' m', j' < j → (m :: rest) !! j' = Some m' →
                isinstance m' (expected_class (i + j')) = true
      end) as Hnext.
    { intros acc' it' Hm. specialize (IH (S i) acc' it').
      destruct (_parse_examples_loop (S i) rest acc' it') as [ps|e].
      - intros [|j] m0 Hj; simpl in Hj.
        + injection Hj as <-. by rewrite Nat.add_0_r.
        + rewrite <- Nat.add_succ_comm. by apply IH.
      - destruct IH as (j & m0 & Hj & Hbad & -> & Hfirst).
        exists (S j), m0. rewrite <- !Nat.add_succ_comm.
        repeat split; try done.
        intros [|j'] m' Hlt Hj'; simpl in Hj'.
        + injection Hj' as <-. by rewrite Nat.add_0_r.
        + rewrite <- Nat.add_succ_comm. apply Hfirst; [lia|done]. }
    assert (∀ c, expected_class i = c → isinstance m c = false →
      ∃ j m0, (m :: rest) !! j = Some m0
        ∧ isinstance m0 (expected_class (i + j)) = false
        ∧ InvalidExampleRole c (type m) i
          = InvalidExampleRole (expected_class (i + j)) (type m0) (i + j)
        ∧ ∀ j' m', j' < j → (m :: rest) !! j' = Some m' →
            isinstance m' (expected_class (i + j')) = true) as Hbad.
    { intros c <- Hm. exists 0, m. rewrite Nat.add_0_r.
      repeat split; try done. intros j' m' Hlt. lia. }
    destruct (parity_cases i) as [Hi|Hi].
    + rewrite examples_loop_even by done.
      assert (expected_class i = HumanMessageClass) as Hc
        by (unfold expected_class; by rewrite Hi).
      destruct (isinstance m HumanMessageClass) eqn:Hm.
      * apply Hnext. by rewrite Hc.
      * by apply Hbad.
    + rewrite examples_loop_odd by done.
      assert (expected_class i = AIMessageClass) as Hc
        by (unfold expected_class; by rewrite Hi).
      destruct (isinstance m AIMessageClass) eqn:Hm.
      * apply Hnext. by rewrite Hc.
      * by apply Hbad.
Qed.

(** On a list of human/ai pairs the loop, entered at an even index,
    appends one pair per two messages. *)
Lemma examples_loop_pairs (n : nat) : ∀ l i acc it,
  length l = 2 * n →
  i mod 2 = 0 →
  (∀ j m, l !! j = Some m → isinstance m (expected_class (i + j)) = true) →
  _parse_examples_loop i l acc it = Ok (acc ++ pair_up l).
Proof.
  induction n as [|n IH]; intros l i acc it Hlen Hi Hl.
  - destruct l; [|discriminate]. simpl. by rewrite app_nil_r.
  - destruct l as [|h [|a rest]]; simpl in Hlen; try lia.
    pose proof (Hl 0 h eq_refl) as Hh. pose proof (Hl 1 a eq_refl) as Ha.
    rewrite Nat.add_0_r in Hh. unfold expected_class in Hh, Ha.
    rewrite Hi in Hh. simpl in Hh.
    replace (i + 1) with (S i) in Ha by lia.
    rewrite (parity_succ i Hi) in Ha. simpl in Ha.
    rewrite examples_loop_even, Hh by done.
    rewrite examples_loop_odd, Ha by by apply parity_succ.
    rewrite IH.
    + simpl. by rewrite <- app_assoc.
    + lia.
    + by apply parity_succ_odd, parity_succ.
    + intros j m Hj. replace (S (S i) + j) with (i + S (S j)) by lia.
      by apply Hl.
Qed.

Lemma length_pair_up (n : nat) : ∀ l, length l = 2 * n → length (pair_up l) = n.
Proof.
  induction n as [|n IH]; intros l Hlen.
  - by destruct l.
  - destruct l as [|h [|a rest]]; simpl in Hlen; try lia. simpl.
    f_equal. apply IH. lia.
Qed.

Lemma lookup_pair_up l : ∀ k h a,
  l !! (2 * k) = Some h → l !! (2 * k + 1) = Some a →
  pair_up l !! k = Some (mkInputOutputTextPair (Some (content h)) (content a)).
Proof.
  induction l as [l IH] using (induction_ltof1 _ (@length _)); unfold ltof in IH.
  intros k h a Hh Ha. destruct l as [|x [|y rest]]; try done.
  - by destruct k.
  - destruct k as [|k]; simpl in *.
    + by injection Hh as <-; injection Ha as <-.
    + replace (k + S (k + 0)) with (S (2 * k)) in Hh by lia.
      replace (k + S (k + 0) + 1) with (S (2 * k + 1)) in Ha by lia.
      simpl in Hh, Ha. apply IH; [simpl; lia|..]; by simpl.
Qed.
End example_parser.

Section example_claims.
Implicit Types (l : list BaseMessage) (m : BaseMessage).

Lemma expected_class_even (i : nat) :
  i mod 2 = 0 → expected_class i = HumanMessageClass.
Proof. intros Hi. unfold expected_class. by rewrite Hi. Qed.

Lemma expected_class_odd (i : nat) :
  i mod 2 = 1 → expected_class i = AIMessageClass.
Proof. intros Hi. unfold expected_class. by rewrite Hi. Qed.

Lemma parse_examples_even l :
  length l mod 2 = 0 → _parse_examples l = _parse_examples_loop 0 l [] None.
Proof. intros Hlen. unfold _parse_examples. by rewrite Hlen. Qed.

Lemma parse_examples_odd l :
  length l mod 2 = 1 → _parse_examples l = Err (InvalidExampleCount (length l)).
Proof. intros Hlen. unfold _parse_examples. by rewrite Hlen. Qed.

(** C7: on an example list of even length whose even offsets hold human
    messages and whose odd offsets hold ai messages, the example parser
    returns length/2 pairs, and the k-th pair holds the content of the
    message at offset 2k as input and of the one at 2k+1 as output. *)
Theorem examples_of_alternating_list l :
  length l mod 2 = 0 →
  (∀ k m, l !! (2 * k) = Some m → isinstance m HumanMessageClass = true) →
  (∀ k m, l !! (2 * k + 1) = Some m → isinstance m AIMessageClass = true) →
  ∃ pairs,
    _parse_examples l = Ok pairs
    ∧ length pairs = length l / 2
    ∧ ∀ k, k < length l / 2 →
        ∃ h a, l !! (2 * k) = Some h ∧ l !! (2 * k + 1) = Some a
          ∧ pairs !! k = Some {| input_text := Some (content h);
                                 output_text := content a |}.
Proof.
  intros Hlen Heven Hodd.
  pose proof (Nat.div_mod_eq (length l) 2) as Hdiv. rewrite Hlen in Hdiv.
  exists (pair_up l). split; [|split].
  - rewrite parse_examples_even by done.
    apply (examples_loop_pairs (length l / 2)); [lia|done|].
    intros j m Hj. simpl.
    pose proof (Nat.div_mod_eq j 2) as Hj2.
    destruct (parity_cases j) as [Hp|Hp]; rewrite Hp in Hj2.
    + rewrite expected_class_even by done.
      apply (Heven (j / 2)). by replace (2 * (j / 2)) with j by lia.
    + rewrite expected_class_odd by done.
      apply (Hodd (j / 2)). by replace (2 * (j / 2) + 1) with j by lia.
  - apply length_pair_up. lia.
  - intros k Hk.
    destruct (lookup_lt_is_Some_2 l (2 * k)) as [h Hh]; [lia|].
    destruct (lookup_lt_is_Some_2 l (2 * k + 1)) as [a Ha]; [lia|].
    exists h, a. repeat split; try done. by apply lookup_pair_up.
Qed.

Lemma examples_of_alternating_list_witness :
  ∃ pairs,
    _parse_examples [HumanMessage "2+2"; AIMessage "4"; HumanMessage "3+3"; AIMessage "6"]
    = Ok pairs
    ∧ length pairs = 2
    ∧ ∀ k, k < 2 →
        ∃ h a,
          [HumanMessage "2+2"; AIMessage "4"; HumanMessage "3+3"; AIMessage "6"]
            !! (2 * k) = Some h
          ∧ [HumanMessage "2+2"; AIMessage "4"; HumanMessage "3+3"; AIMessage "6"]
            !! (2 * k + 1) = Some a
          ∧ pairs !! k = Some {| input_text := Some (content h);
                                 output_text := content a |}.
Proof.
  apply (examples_of_alternating_list
           [HumanMessage "2+2"; AIMessage "4"; HumanMessage "3+3"; AIMessage "6"]).
  - reflexivity.
  - intros k m Hm. pose proof (lookup_lt_Some _ _ _ Hm) as Hk. simpl in Hk.
    destruct k as [|[|k]]; [| |lia]; simpl in Hm; by inversion Hm.
  - intros k m Hm. pose proof (lookup_lt_Some _ _ _ Hm) as Hk. simpl in Hk.
    destruct k as [|[|k]]; [| |lia]; simpl in Hm; by inversion Hm.
Defined.

(** C8: the example parser raises the count error exactly on lists of odd
    length; on lists of even length it raises the role error exactly
    when an even offset holds a message that is not human or an odd
    offset one that is not ai, and the error names the offset, the class
    expected there and the class found. *)
Theorem examples_errors l :
  ((∃ n, _parse_examples l = Err (InvalidExampleCount n)) ↔ length l mod 2 = 1)
  ∧ (length l mod 2 = 0 →
      ((∃ expected actual i,
          _parse_examples l = Err (InvalidExampleRole expected actual i))
       ↔ (∃ i m, l !! i = Some m
            ∧ ((i mod 2 = 0 ∧ isinstance m HumanMessageClass = false)
               ∨ (i mod 2 = 1 ∧ isinstance m AIMessageClass = false))))
      ∧ (∀ expected actual i,
          _parse_examples l = Err (InvalidExampleRole expected actual i) →
          ∃ m, l !! i = Some m
            ∧ expected = (if i mod 2 =? 0 then HumanMessageClass else AIMessageClass)
            ∧ actual = type m
            ∧ isinstance m expected = false)).
Proof.
  pose proof (examples_loop_spec l 0 [] None) as Hloop.
  split; [split|].
  - intros [n Hn]. destruct (parity_cases (length l)) as [Hlen|Hlen]; [|done].
    rewrite parse_examples_even in Hn by done. rewrite Hn in Hloop.
    by destruct Hloop as (? & ? & _ & _ & ? & _).
  - intros Hlen. eexists. by apply parse_examples_odd.
  - intros Hlen. rewrite parse_examples_even by done.
    destruct (_parse_examples_loop 0 l [] None) as [ps|e]; cbn [Nat.add] in Hloop.
    + split; [split|].
      * by intros (? & ? & ? & ?).
      * intros (i & m & Hi & [[Hp Hm]|[Hp Hm]]); specialize (Hloop i m Hi).
        -- rewrite expected_class_even in Hloop by done. congruence.
        -- rewrite expected_class_odd in Hloop by done. congruence.
      * by intros.
    + destruct Hloop as (j & m & Hj & Hbad & -> & _).
      split; [split|].
      * intros _. exists j, m. split; [done|].
        destruct (parity_cases j) as [Hp|Hp]; [left|right]; split; try done.
        -- by rewrite expected_class_even in Hbad.
        -- by rewrite expected_class_odd in Hbad.
      * intros _. by do 3 eexists.
      * intros expected actual i [= <- <- <-]. by exists m.
Qed.

Lemma examples_errors_witness :
  _parse_examples [HumanMessage "2+2"] = Err (InvalidExampleCount 1)
  ∧ ∃ m, [HumanMessage "2+2"; SystemMessage "4"] !! 1 = Some m
      ∧ AIMessageClass = (if 1 mod 2 =? 0 then HumanMessageClass else AIMessageClass)
      ∧ SystemMessageClass = type m
      ∧ isinstance m AIMessageClass = false.
Proof.
  split; [reflexivity|].
  apply (proj2 (proj2 (examples_errors [HumanMessage "2+2"; SystemMessage "4"])
                  eq_refl)).
  reflexivity.
Defined.
End example_claims.

(** ** The orchestrator, step by step *)

Section orchestrator.
Variable self : ChatVertexAI.
Implicit Types (messages : list BaseMessage) (stop : option (list string)).
Implicit Types (run_manager : option CallbackManagerForLLMRun).
Implicit Types (kwargs : Params) (log : list Event).

(** The loop of [_stream] reports one token per response when a callback
    manager is given, and then yields one chunk per response, in order,
    unless the stream ends in a failure. *)
Lemma stream_loop_run stop run_manager responses failure : ∀ log,
  _stream_loop stop run_manager responses failure log
  = (if failure is Some e then Err e else Ok (chunk_of stop <$> responses),
     log ++ token_events stop run_manager responses).
Proof.
  induction responses as [|r rest IH]; intros log.
  - unfold token_events.
    destruct run_manager, failure; simpl; by rewrite app_nil_r.
  - cbn [_stream_loop]. unfold bind.
    destruct run_manager as [cb|].
    + unfold perform at 1. rewrite IH. unfold ret, token_events. simpl.
      rewrite <- app_assoc. by destruct failure.
    + unfold ret at 1. rewrite IH. unfold ret, token_events. simpl.
      by destruct failure.
Qed.

(** The call of [start_chat] as both operations write it. *)
Lemma start_chat_step h (params : Params) log :
  (if negb (is_codey_model self) then
     call_with_keywords ["context"; "message_history"] params
       (start_chat_call (Some (if str_set (context h) then context h else None))
          (history h) params)
       (start_chat (client self) (Some (if str_set (context h) then context h else None))
          (history h) params)
   else
     call_with_keywords ["message_history"] params
       (start_chat_call None (history h) params)
       (start_chat (client self) None (history h) params)) log
  = if repeats_keyword (written_keywords self) params
    then (Err (TypeError "repeated keyword"), log)
    else (start_chat (client self) (context_keyword self h) (history h) params,
          log ++ [start_chat_call (context_keyword self h) (history h) params]).
Proof.
  unfold written_keywords, context_keyword, session_context, call_with_keywords.
  destruct (negb (is_codey_model self)); by destruct (repeats_keyword _ _).
Qed.

(** The parameters as both operations compute them. *)
Lemma params_step kwargs (defaults : Params) log :
  (if truthy (default VNone (kwargs !! "examples")) then
     pairs <- lift (_parse_examples_arg (default VNone (kwargs !! "examples"))) ;;
     ret (<["examples" := VPairs pairs]> (merge_params defaults kwargs))
   else ret (merge_params defaults kwargs)) log
  = (if truthy (default VNone (kwargs !! "examples")) then
       match _parse_examples_arg (default VNone (kwargs !! "examples")) with
       | Ok pairs => Ok (<["examples" := VPairs pairs]> (merge_params defaults kwargs))
       | Err e => Err e
       end
     else Ok (merge_params defaults kwargs), log).
Proof.
  destruct (truthy _); [|done]. unfold bind, lift.
  by destruct (_parse_examples_arg _).
Qed.

(** Parameters a session is opened with: they repeat no keyword of the
    call, and they are the merge, with the parsed examples if any. *)
Lemma call_params_ok_inv kwargs (params : Params) :
  call_params self kwargs = Ok params →
  repeats_keyword (written_keywords self) params = false
  ∧ ((truthy (default VNone (kwargs !! "examples")) = false
      ∧ params = merge_params (_default_params self) kwargs)
     ∨ (truthy (default VNone (kwargs !! "examples")) = true
        ∧ ∃ pairs,
            _parse_examples_arg (default VNone (kwargs !! "examples")) = Ok pairs
            ∧ params
              = <["examples" := VPairs pairs]>
                  (merge_params (_default_params self) kwargs))).
Proof.
  unfold call_params. cbn zeta.
  destruct (truthy _).
  - destruct (_parse_examples_arg _) as [pairs|e]; [|done].
    destruct (repeats_keyword _ _) eqn:Hrep; [done|].
    intros [= <-]. split; [done|]. right. split; [done|]. by exists pairs.
  - destruct (repeats_keyword _ _) eqn:Hrep; [done|].
    intros [= <-]. split; [done|]. by left.
Qed.

(** [_stream] on a conversation that ends in a human message. *)
Lemma stream_run messages stop run_manager kwargs log q :
  last messages = Some q →
  isinstance q HumanMessageClass = true →
  _stream self messages stop run_manager kwargs log
  = match _parse_chat_history (removelast messages) with
    | Err e => (Err e, log)
    | Ok h =>
        match call_params self kwargs with
        | Err e => (Err e, log)
        | Ok params =>
            let opened := start_chat_call (context_keyword self h) (history h) params in
            match start_chat (client self) (context_keyword self h) (history h) params with
            | Err e => (Err e, log ++ [opened])
            | Ok chat =>
                let sent := send_message_streaming_call (content q) params in
                match send_message_streaming chat (content q) params with
                | Err e => (Err e, log ++ [opened; sent])
                | Ok answer =>
                    (stream_outcome stop answer,
                     log ++ [opened; sent]
                       ++ token_events stop run_manager (stream_responses answer))
                end
            end
        end
    end.
Proof.
  intros Hlast Hq. unfold _stream. rewrite Hlast, Hq. cbn [negb].
  unfold bind at 1. unfold lift at 1.
  destruct (_parse_chat_history (removelast messages)) as [h|e]; [|done].
  cbn zeta. unfold bind at 1. rewrite params_step.
  unfold call_params. cbn zeta.
  destruct (truthy (default VNone (kwargs !! "examples")));
    [destruct (_parse_examples_arg _) as [pairs|e]; [|done]|];
    unfold bind at 1; cbn beta; rewrite start_chat_step;
    (destruct (repeats_keyword _ _); [done|]);
    (destruct (start_chat _ _ _ _) as [chat|e]; [|done]);
    unfold bind at 1; unfold perform at 1;
    (destruct (send_message_streaming _ _ _) as [answer|e];
     [|by rewrite <- app_assoc]);
    rewrite stream_loop_run; unfold stream_outcome; by rewrite <- !app_assoc.
Qed.

(** [_generate] when the effective flag is off. *)
Lemma generate_direct_run messages stop run_manager stream kwargs log q :
  should_stream self stream = false →
  last messages = Some q →
  isinstance q HumanMessageClass = true →
  _generate self messages stop run_manager stream kwargs log
  = match _parse_chat_history (removelast messages) with
    | Err e => (Err e, log)
    | Ok h =>
        match call_params self kwargs with
        | Err e => (Err e, log)
        | Ok params =>
            let opened := start_chat_call (context_keyword self h) (history h) params in
            match start_chat (client self) (context_keyword self h) (history h) params with
            | Err e => (Err e, log ++ [opened])
            | Ok chat =>
                let sent := send_message_call (content q) ∅ in
                match send_message chat (content q) ∅ with
                | Err e => (Err e, log ++ [opened; sent])
                | Ok response =>
                    (Ok (mkChatResult
                           [ChatGeneration
                              (AIMessage (_enforce_stop_words (text response) stop))]),
                     log ++ [opened; sent])
                end
            end
        end
    end.
Proof.
  intros Hflag Hlast Hq. unfold _generate. unfold should_stream in Hflag.
  rewrite Hflag, Hlast, Hq. cbn [negb].
  unfold bind at 1. unfold lift at 1.
  destruct (_parse_chat_history (removelast messages)) as [h|e]; [|done].
  cbn zeta. unfold bind at 1. rewrite params_step.
  unfold call_params. cbn zeta.
  destruct (truthy (default VNone (kwargs !! "examples")));
    [destruct (_parse_examples_arg _) as [pairs|e]; [|done]|];
    unfold bind at 1; cbn beta; rewrite start_chat_step;
    (destruct (repeats_keyword _ _); [done|]);
    (destruct (start_chat _ _ _ _) as [chat|e]; [|done]);
    unfold bind at 1; unfold perform at 1;
    (destruct (send_message _ _ _) as [response|e]);
    unfold ret; by rewrite <- app_assoc.
Qed.

(** [_generate] when the effective flag is on: the chunks of [_stream],
    as they are, become the generations of the result. *)
Lemma generate_streaming_run messages stop run_manager stream kwargs log :
  should_stream self stream = true →
  _generate self messages stop run_manager stream kwargs log
  = match _stream self messages stop run_manager kwargs log with
    | (Ok chunks, log') => (Ok (mkChatResult chunks), log')
    | (Err e, log') => (Err e, log')
    end.
Proof.
  intros Hflag. unfold _generate. unfold should_stream in Hflag.
  rewrite Hflag. reflexivity.
Qed.

(** Validation: both operations stop before anything is logged. *)
Lemma stream_empty stop run_manager kwargs log :
  _stream self [] stop run_manager kwargs log = (Err EmptyConversation, log).
Proof. reflexivity. Qed.

Lemma stream_last_not_human messages stop run_manager kwargs log q :
  last messages = Some q →
  isinstance q HumanMessageClass = false →
  _stream self messages stop run_manager kwargs log
  = (Err (InvalidLastMessage (type_attr q)), log).
Proof. intros Hlast Hq. unfold _stream. by rewrite Hlast, Hq. Qed.
End orchestrator.

(** ** Validation *)

Section validation.
Variable self : ChatVertexAI.

Lemma generate_empty (stop : option (list string))
    (run_manager : option CallbackManagerForLLMRun) (stream : option bool)
    (kwargs : Params) (log : list Event) :
  _generate self [] stop run_manager stream kwargs log = (Err EmptyConversation, log).
Proof.
  unfold _generate. destruct (if stream is Some s then s else _); [|done].
  unfold bind. by rewrite stream_empty.
Qed.

Lemma generate_last_not_human (messages : list BaseMessage)
    (stop : option (list string)) (run_manager : option CallbackManagerForLLMRun)
    (stream : option bool) (kwargs : Params) (log : list Event) q :
  last messages = Some q →
  isinstance q HumanMessageClass = false →
  _generate self messages stop run_manager stream kwargs log
  = (Err (InvalidLastMessage (type_attr q)), log).
Proof.
  intros Hlast Hq. unfold _generate. destruct (if stream is Some s then s else _).
  - unfold bind. by rewrite (stream_last_not_human _ _ _ _ _ _ q).
  - by rewrite Hlast, Hq.
Qed.

(** C3: on an empty conversation both operations fail with
    [EmptyConversation]; on one whose last message is not human both fail
    with [InvalidLastMessage] carrying that message's role.  In each case
    the log is returned as it was: nothing was asked of the client. *)
Theorem validation_precedes_client (messages : list BaseMessage)
    (stop : option (list string)) (run_manager : option CallbackManagerForLLMRun)
    (stream : option bool) (kwargs : Params) (log : list Event) :
  (messages = [] →
     _generate self messages stop run_manager stream kwargs log
     = (Err EmptyConversation, log)
     ∧ _stream self messages stop run_manager kwargs log
       = (Err EmptyConversation, log))
  ∧ (∀ q, last messages = Some q →
       isinstance q HumanMessageClass = false →
       _generate self messages stop run_manager stream kwargs log
       = (Err (InvalidLastMessage (type_attr q)), log)
       ∧ _stream self messages stop run_manager kwargs log
         = (Err (InvalidLastMessage (type_attr q)), log)).
Proof.
  split.
  - intros ->. split; [apply generate_empty|apply stream_empty].
  - intros q Hlast Hq.
    split; [by apply generate_last_not_human|by apply stream_last_not_human].
Qed.
End validation.

Lemma validation_precedes_client_witness :
  run (_generate (scripted_model None false "fine" []) [] None None None ∅)
  = (Err EmptyConversation, [])
  ∧ run (_stream (scripted_model None false "fine" [])
           [HumanMessage "Hi"; AIMessage "Hello"] None None ∅)
    = (Err (InvalidLastMessage "ai"), []).
Proof.
  split.
  - apply (proj1 (validation_precedes_client (scripted_model None false "fine" [])
                    [] None None None ∅ [])). reflexivity.
  - apply (proj2 (validation_precedes_client (scripted_model None false "fine" [])
                    [HumanMessage "Hi"; AIMessage "Hello"] None None None ∅ [])
             (AIMessage "Hello")); reflexivity.
Defined.

(** ** The streaming flag *)

Section streaming_flag.
Variable self : ChatVertexAI.
Implicit Types (messages : list BaseMessage) (kwargs : Params).

(** A flag passed as [True] or [False] decides by itself. *)
Lemma should_stream_explicit (b : bool) : should_stream self (Some b) = b.
Proof. reflexivity. Qed.

(** A flag passed as [None] defers to the instance. *)
Lemma should_stream_none : should_stream self None = flag_set (streaming self).
Proof. reflexivity. Qed.

(** A call without the keyword is a call with [stream=False]. *)
Lemma generate_call_omitted messages stop run_manager kwargs :
  _generate_call self messages stop run_manager None kwargs
  = _generate self messages stop run_manager (Some false) kwargs.
Proof. reflexivity. Qed.
End streaming_flag.

(** C1: evaluation of [_generate] on an instance whose [streaming] default
  is set, called without a [stream] keyword.  The parameter then holds
  its signature default [False], which is not [None]: the instance
  default is not consulted, and the call takes the non-streaming path
  (one [send_message], a plain generation), whereas the same call with
  [stream=None] streams. *)
Theorem omitted_stream_flag_ignores_instance_default :
  streaming (scripted_model (Some true) false "fine" ["A"; "B"; "C"]) = Some true
  ∧ should_stream (scripted_model (Some true) false "fine" ["A"; "B"; "C"])
      stream_default = false
  ∧ run (_generate_call (scripted_model (Some true) false "fine" ["A"; "B"; "C"])
           [HumanMessage "Hi"] None None None ∅)
    = (Ok (mkChatResult [ChatGeneration (AIMessage "fine")]),
       [start_chat_call (Some None) [] {[ "max_output_tokens" := VInt 128 ]};
        send_message_call "Hi" ∅])
  ∧ run (_generate_call (scripted_model (Some true) false "fine" ["A"; "B"; "C"])
           [HumanMessage "Hi"] None None (Some None) ∅)
    = (Ok (mkChatResult [ChatGenerationChunk (AIMessageChunk "A");
                         ChatGenerationChunk (AIMessageChunk "B");
                         ChatGenerationChunk (AIMessageChunk "C")]),
       [start_chat_call (Some None) [] {[ "max_output_tokens" := VInt 128 ]};
        send_message_streaming_call "Hi" {[ "max_output_tokens" := VInt 128 ]}]).
Proof. repeat split; vm_compute; reflexivity. Qed.

(** C2: evaluation of [_generate] with the streaming flag set, on a session
  that streams "A", "B", "C" with no stop word.  The result holds the
  three chunks as three generations; no generation holds "ABC", which
  is only the concatenation of their texts. *)
Theorem streamed_generate_returns_one_generation_per_chunk :
  fst (run (_generate (scripted_model None false "ABC" ["A"; "B"; "C"])
              [HumanMessage "Hi"] None None (Some true) ∅))
  = Ok (mkChatResult [ChatGenerationChunk (AIMessageChunk "A");
                      ChatGenerationChunk (AIMessageChunk "B");
                      ChatGenerationChunk (AIMessageChunk "C")])
  ∧ (∀ g, fst (run (_generate (scripted_model None false "ABC" ["A"; "B"; "C"])
                      [HumanMessage "Hi"] None None (Some true) ∅))
          ≠ Ok (mkChatResult [g]))
  ∧ (∀ result,
       fst (run (_generate (scripted_model None false "ABC" ["A"; "B"; "C"])
                   [HumanMessage "Hi"] None None (Some true) ∅))
       = Ok result →
       generation_text <$> generations result = ["A"; "B"; "C"]
       ∧ String.concat "" (generation_text <$> generations result) = "ABC")
  ∧ fst (run (_generate (scripted_model None false "ABC" ["A"; "B"; "C"])
                [HumanMessage "Hi"] None None (Some false) ∅))
    = Ok (mkChatResult [ChatGeneration (AIMessage "ABC")]).
Proof.
  repeat split; try (vm_compute; reflexivity).
  - intros g. vm_compute. discriminate.
  - revert H. vm_compute. by intros [= <-].
  - revert H. vm_compute. by intros [= <-].
Qed.

(** ** What reaches the client *)

Section client_boundary.
Variable self : ChatVertexAI.
Implicit Types (messages : list BaseMessage) (stop : option (list string)).
Implicit Types (run_manager : option CallbackManagerForLLMRun).
Implicit Types (kwargs : Params) (log : list Event).

(** Outside the [examples] key the parameters of a call are the
    call-time options over the defaults. *)
Lemma call_params_lookup kwargs params (k : string) :
  call_params self kwargs = Ok params →
  k ≠ "examples" →
  params !! k = match kwargs !! k with
                | Some v => Some v
                | None => _default_params self !! k
                end.
Proof.
  intros Hparams Hk.
  assert (merge_params (_default_params self) kwargs !! k
          = match kwargs !! k with
            | Some v => Some v
            | None => _default_params self !! k
            end) as Hmerge.
  { unfold merge_params. destruct (kwargs !! k) as [v|] eqn:Hkw.
    - by apply lookup_union_Some_l.
    - by apply lookup_union_r. }
  apply call_params_ok_inv in Hparams
    as [_ [[_ ->]|[_ (pairs & _ & ->)]]]; [done|].
  by rewrite lookup_insert_ne.
Qed.

(** C10: a successful non-streaming call logs exactly two client
    operations, [start_chat] with the merged parameters and
    [send_message] with the question's content and no keyword; a
    successful streaming run logs [start_chat] with the merged
    parameters and [send_message_streaming] with the question's content
    and the same parameters again. *)
Theorem params_forwarding messages stop run_manager stream kwargs :
  (should_stream self stream = false →
   ∀ result,
     fst (run (_generate self messages stop run_manager stream kwargs)) = Ok result →
     ∃ ctx hist params q,
       last messages = Some q
       ∧ call_params self kwargs = Ok params
       ∧ snd (run (_generate self messages stop run_manager stream kwargs))
         = [start_chat_call ctx hist params; send_message_call (content q) ∅])
  ∧ (∀ chunks,
       fst (run (_stream self messages stop run_manager kwargs)) = Ok chunks →
       ∃ ctx hist params q responses,
         last messages = Some q
         ∧ call_params self kwargs = Ok params
         ∧ snd (run (_stream self messages stop run_manager kwargs))
           = [start_chat_call ctx hist params;
              send_message_streaming_call (content q) params]
             ++ token_events stop run_manager responses)
  ∧ (∀ params (k : string),
       call_params self kwargs = Ok params →
       k ≠ "examples" →
       params !! k = match kwargs !! k with
                     | Some v => Some v
                     | None => _default_params self !! k
                     end).
Proof.
  unfold run. split; [|split].
  - intros Hflag result.
    destruct (last messages) as [q|] eqn:Hlast.
    2:{ unfold _generate. unfold should_stream in Hflag.
        by rewrite Hflag, Hlast. }
    destruct (isinstance q HumanMessageClass) eqn:Hq.
    2:{ unfold _generate. unfold should_stream in Hflag.
        by rewrite Hflag, Hlast, Hq. }
    rewrite (generate_direct_run _ _ _ _ _ _ _ q) by done.
    destruct (_parse_chat_history _) as [h|e]; [|done].
    destruct (call_params self kwargs) as [params|e]; [|done]. cbn zeta.
    destruct (start_chat _ _ _ _) as [chat|e]; [|done].
    destruct (send_message _ _ _) as [response|e]; [|done].
    intros _. by exists (context_keyword self h), (history h), params, q.
  - intros chunks.
    destruct (last messages) as [q|] eqn:Hlast.
    2:{ unfold _stream. by rewrite Hlast. }
    destruct (isinstance q HumanMessageClass) eqn:Hq.
    2:{ by rewrite (stream_last_not_human _ _ _ _ _ _ q). }
    rewrite (stream_run _ _ _ _ _ _ q) by done.
    destruct (_parse_chat_history _) as [h|e]; [|done].
    destruct (call_params self kwargs) as [params|e]; [|done]. cbn zeta.
    destruct (start_chat _ _ _ _) as [chat|e]; [|done].
    destruct (send_message_streaming _ _ _) as [answer|e]; [|done].
    intros _.
    by exists (context_keyword self h), (history h), params, q, (stream_responses answer).
  - intros params k. apply call_params_lookup.
Qed.
End client_boundary.

Lemma params_forwarding_witness :
  (∃ ctx hist params q,
     last terse_conversation = Some q
     ∧ call_params (scripted_model None false "fine" ["A"; "B"]) {[ "top_k" := VInt 40 ]}
       = Ok params
     ∧ snd (run (_generate (scripted_model None false "fine" ["A"; "B"])
                   terse_conversation None None (Some false) {[ "top_k" := VInt 40 ]}))
       = [start_chat_call ctx hist params; send_message_call (content q) ∅])
  ∧ (∃ ctx hist params q responses,
       last terse_conversation = Some q
       ∧ call_params (scripted_model None false "fine" ["A"; "B"]) {[ "top_k" := VInt 40 ]}
         = Ok params
       ∧ snd (run (_stream (scripted_model None false "fine" ["A"; "B"])
                     terse_conversation None None {[ "top_k" := VInt 40 ]}))
         = [start_chat_call ctx hist params;
            send_message_streaming_call (content q) params]
           ++ token_events None None responses).
Proof.
  split.
  - apply (proj1 (params_forwarding (scripted_model None false "fine" ["A"; "B"])
                    terse_conversation None None (Some false) {[ "top_k" := VInt 40 ]})
             eq_refl
             (mkChatResult [ChatGeneration (AIMessage "fine")])).
    vm_compute. reflexivity.
  - apply (proj1 (proj2 (params_forwarding (scripted_model None false "fine" ["A"; "B"])
                    terse_conversation None None (Some false) {[ "top_k" := VInt 40 ]}))
             [ChatGenerationChunk (AIMessageChunk "A");
              ChatGenerationChunk (AIMessageChunk "B")]).
    vm_compute. reflexivity.
Defined.

(** ** Context and turns at the client *)

Section session_arguments.
Variable self : ChatVertexAI.
Implicit Types (messages : list BaseMessage) (stop : option (list string)).
Implicit Types (run_manager : option CallbackManagerForLLMRun).
Implicit Types (kwargs : Params) (log : list Event).

Lemma token_events_not_start_chat stop run_manager responses ctx hist params :
  start_chat_call ctx hist params ∉ token_events stop run_manager responses.
Proof.
  unfold token_events. destruct run_manager; [|apply not_elem_of_nil].
  intros (r & Hr & _)%list_elem_of_fmap. discriminate.
Qed.

(** A [start_chat] in the log of [_stream] carries the parsed history,
    its context keyword and the parameters of the call. *)
Lemma stream_opened messages stop run_manager kwargs ctx hist params :
  start_chat_call ctx hist params
    ∈ snd (run (_stream self messages stop run_manager kwargs)) →
  ∃ h, _parse_chat_history (removelast messages) = Ok h
       ∧ ctx = context_keyword self h
       ∧ hist = history h
       ∧ call_params self kwargs = Ok params.
Proof.
  unfold run.
  destruct (last messages) as [q|] eqn:Hlast.
  2:{ unfold _stream. rewrite Hlast. by intros ?%elem_of_nil. }
  destruct (isinstance q HumanMessageClass) eqn:Hq.
  2:{ rewrite (stream_last_not_human _ _ _ _ _ _ q) by done.
      by intros ?%elem_of_nil. }
  rewrite (stream_run _ _ _ _ _ _ q) by done.
  destruct (_parse_chat_history _) as [h|e]; [|by intros ?%elem_of_nil].
  destruct (call_params self kwargs) as [p|e]; [|by intros ?%elem_of_nil].
  cbn zeta. intros Hin.
  assert (start_chat_call ctx hist params
          = start_chat_call (context_keyword self h) (history h) p) as [= -> -> ->];
    [|by exists h].
  destruct (start_chat _ _ _ _) as [chat|e]; simpl in Hin.
  - destruct (send_message_streaming _ _ _) as [responses|e]; simpl in Hin.
    + apply elem_of_cons in Hin as [?|Hin]; [done|].
      apply elem_of_cons in Hin as [?|Hin]; [done|].
      by apply token_events_not_start_chat in Hin.
    + apply elem_of_cons in Hin as [?|Hin]; [done|].
      apply elem_of_cons in Hin as [?|Hin]; [done|].
      by apply elem_of_nil in Hin.
  - apply elem_of_cons in Hin as [?|Hin]; [done|].
    by apply elem_of_nil in Hin.
Qed.

Lemma generate_streaming_log messages stop run_manager stream kwargs log :
  should_stream self stream = true →
  snd (_generate self messages stop run_manager stream kwargs log)
  = snd (_stream self messages stop run_manager kwargs log).
Proof.
  intros Hflag. rewrite generate_streaming_run by done.
  by destruct (_stream _ _ _ _ _ _) as [[chunks|e] log'].
Qed.

(** The same for [_generate], on either path. *)
Lemma generate_opened messages stop run_manager stream kwargs ctx hist params :
  start_chat_call ctx hist params
    ∈ snd (run (_generate self messages stop run_manager stream kwargs)) →
  ∃ h, _parse_chat_history (removelast messages) = Ok h
       ∧ ctx = context_keyword self h
       ∧ hist = history h
       ∧ call_params self kwargs = Ok params.
Proof.
  destruct (should_stream self stream) eqn:Hflag.
  { unfold run. rewrite generate_streaming_log by done. apply stream_opened. }
  unfold run.
  destruct (last messages) as [q|] eqn:Hlast.
  2:{ unfold _generate. unfold should_stream in Hflag. rewrite Hflag, Hlast.
      by intros ?%elem_of_nil. }
  destruct (isinstance q HumanMessageClass) eqn:Hq.
  2:{ unfold _generate. unfold should_stream in Hflag. rewrite Hflag, Hlast, Hq.
      by intros ?%elem_of_nil. }
  rewrite (generate_direct_run _ _ _ _ _ _ _ q) by done.
  destruct (_parse_chat_history _) as [h|e]; [|by intros ?%elem_of_nil].
  destruct (call_params self kwargs) as [p|e]; [|by intros ?%elem_of_nil].
  cbn zeta. intros Hin.
  assert (start_chat_call ctx hist params
          = start_chat_call (context_keyword self h) (history h) p) as [= -> -> ->];
    [|by exists h].
  destruct (start_chat _ _ _ _) as [chat|e]; simpl in Hin.
  - destruct (send_message _ _ _) as [response|e]; simpl in Hin.
    + apply elem_of_cons in Hin as [?|Hin]; [done|].
      apply elem_of_cons in Hin as [?|Hin]; [done|].
      by apply elem_of_nil in Hin.
    + apply elem_of_cons in Hin as [?|Hin]; [done|].
      apply elem_of_cons in Hin as [?|Hin]; [done|].
      by apply elem_of_nil in Hin.
  - apply elem_of_cons in Hin as [?|Hin]; [done|].
    by apply elem_of_nil in Hin.
Qed.

(** The log of either operation is a function of the parsed history's
    turns and session context, of the last message and of the options. *)
Lemma stream_log_congruence messages messages' stop run_manager kwargs :
  last messages = last messages' →
  match _parse_chat_history (removelast messages),
        _parse_chat_history (removelast messages') with
  | Ok h, Ok h' => history h = history h' ∧ session_context h = session_context h'
  | Err _, Err _ => True
  | _, _ => False
  end →
  snd (run (_stream self messages stop run_manager kwargs))
  = snd (run (_stream self messages' stop run_manager kwargs)).
Proof.
  intros Hlast Hparse. unfold run.
  destruct (last messages') as [q|] eqn:Hlast'.
  2:{ unfold _stream. by rewrite Hlast, Hlast'. }
  destruct (isinstance q HumanMessageClass) eqn:Hq.
  2:{ by rewrite !(stream_last_not_human _ _ _ _ _ _ q). }
  rewrite !(stream_run _ _ _ _ _ _ q) by done.
  destruct (_parse_chat_history (removelast messages)) as [h|e],
           (_parse_chat_history (removelast messages')) as [h'|e']; try done.
  destruct Hparse as [Hhist Hctx]. unfold context_keyword.
  by rewrite Hhist, Hctx.
Qed.

Lemma generate_log_congruence messages messages' stop run_manager stream kwargs :
  last messages = last messages' →
  match _parse_chat_history (removelast messages),
        _parse_chat_history (removelast messages') with
  | Ok h, Ok h' => history h = history h' ∧ session_context h = session_context h'
  | Err _, Err _ => True
  | _, _ => False
  end →
  snd (run (_generate self messages stop run_manager stream kwargs))
  = snd (run (_generate self messages' stop run_manager stream kwargs)).
Proof.
  intros Hlast Hparse.
  destruct (should_stream self stream) eqn:Hflag.
  { unfold run. rewrite !generate_streaming_log by done.
    by apply stream_log_congruence. }
  unfold run.
  destruct (last messages') as [q|] eqn:Hlast'.
  2:{ unfold _generate. unfold should_stream in Hflag.
      by rewrite Hflag, Hlast, Hlast'. }
  destruct (isinstance q HumanMessageClass) eqn:Hq.
  2:{ unfold _generate. unfold should_stream in Hflag.
      by rewrite Hflag, Hlast, Hlast', Hq. }
  rewrite !(generate_direct_run _ _ _ _ _ _ _ q) by done.
  destruct (_parse_chat_history (removelast messages)) as [h|e],
           (_parse_chat_history (removelast messages')) as [h'|e']; try done.
  destruct Hparse as [Hhist Hctx]. unfold context_keyword.
  by rewrite Hhist, Hctx.
Qed.
End session_arguments.

Section context_claims.
Variable self : ChatVertexAI.
Implicit Types (messages : list BaseMessage) (stop : option (list string)).
Implicit Types (run_manager : option CallbackManagerForLLMRun).
Implicit Types (kwargs : Params).

(** After a leading system message the parsed context is its content. *)
Lemma history_context_of_system (c : string) (l : list BaseMessage) h :
  _parse_chat_history (SystemMessage c :: l) = Ok h → context h = Some c.
Proof.
  unfold _parse_chat_history. simpl. intros Hh.
  pose proof (history_loop_shift l 1 1 [] (Some c) (Some c)) as Hshift.
  rewrite Hh in Hshift. apply Hshift; lia.
Qed.

(** An empty system message in front of a list that does not start with
    a system message changes neither the turns nor the outcome. *)
Lemma history_after_empty_system (l : list BaseMessage) :
  (∀ m, head l = Some m → isinstance m SystemMessageClass = false) →
  match _parse_chat_history (SystemMessage "" :: l), _parse_chat_history l with
  | Ok h, Ok h' => history h = history h' ∧ context h = Some "" ∧ context h' = None
  | Err _, Err _ => True
  | _, _ => False
  end.
Proof.
  intros Hhead. destruct l as [|m rest]; [done|].
  specialize (Hhead m eq_refl). unfold _parse_chat_history.
  destruct m; try discriminate; simpl; try done;
    apply history_loop_shift; lia.
Qed.

Lemma session_context_after_empty_system (msgs : list BaseMessage) h :
  _parse_chat_history (removelast (SystemMessage "" :: msgs)) = Ok h →
  session_context h = None.
Proof.
  destruct msgs as [|m rest].
  - simpl. by intros [= <-].
  - change (removelast (SystemMessage "" :: m :: rest))
      with (SystemMessage "" :: removelast (m :: rest)).
    intros Hh%history_context_of_system. unfold session_context. by rewrite Hh.
Qed.

(** Behind an empty system message every session opened gets no context. *)
Lemma empty_system_message_opened (msgs : list BaseMessage)
    stop run_manager (stream : option bool) kwargs ctx
    (hist : list ChatMessage) (params : Params) :
  start_chat_call ctx hist params
    ∈ snd (run (_generate self (SystemMessage "" :: msgs) stop run_manager
                  stream kwargs))
  ∨ start_chat_call ctx hist params
      ∈ snd (run (_stream self (SystemMessage "" :: msgs) stop run_manager kwargs)) →
  ctx = if is_codey_model self then None else Some None.
Proof.
  intros Hin.
  assert (∃ h, _parse_chat_history (removelast (SystemMessage "" :: msgs)) = Ok h
               ∧ ctx = context_keyword self h) as (h & Hh & ->).
  { destruct Hin as [Hin|Hin].
    - apply generate_opened in Hin as (h & ? & ? & _). by exists h.
    - apply stream_opened in Hin as (h & ? & ? & _). by exists h. }
  unfold context_keyword.
  rewrite (session_context_after_empty_system _ _ Hh).
  by destruct (is_codey_model self).
Qed.

(** An empty system message in front of any conversation that does not
    start with a system message leaves the log as it is. *)
Lemma empty_system_message_same_log (msgs : list BaseMessage)
    stop run_manager (stream : option bool) kwargs :
  (∀ m, head msgs = Some m → isinstance m SystemMessageClass = false) →
  snd (run (_generate self (SystemMessage "" :: msgs) stop run_manager stream kwargs))
  = snd (run (_generate self msgs stop run_manager stream kwargs))
  ∧ snd (run (_stream self (SystemMessage "" :: msgs) stop run_manager kwargs))
    = snd (run (_stream self msgs stop run_manager kwargs)).
Proof.
  intros Hhead. destruct msgs as [|m rest].
  { split; unfold run.
    - rewrite (generate_last_not_human _ _ _ _ _ _ _ (SystemMessage "")) by done.
      by rewrite generate_empty.
    - reflexivity. }
  assert (match _parse_chat_history (removelast (SystemMessage "" :: m :: rest)),
                _parse_chat_history (removelast (m :: rest)) with
          | Ok h, Ok h' =>
              history h = history h' ∧ session_context h = session_context h'
          | Err _, Err _ => True
          | _, _ => False
          end) as Hparse.
  { change (removelast (SystemMessage "" :: m :: rest))
      with (SystemMessage "" :: removelast (m :: rest)).
    pose proof (history_after_empty_system (removelast (m :: rest))) as Hh.
    destruct (_parse_chat_history (SystemMessage "" :: _)) as [h|e],
             (_parse_chat_history (removelast (m :: rest))) as [h'|e'];
      try done.
    - destruct Hh as (Hhist & Hctx & Hctx').
      { intros m' Hm'. apply Hhead. simpl in *. by destruct rest. }
      split; [done|]. unfold session_context. by rewrite Hctx, Hctx'.
    - apply Hh. intros m' Hm'. apply Hhead. simpl in *. by destruct rest.
    - apply Hh. intros m' Hm'. apply Hhead. simpl in *. by destruct rest. }
  split.
  + by apply generate_log_congruence.
  + by apply stream_log_congruence.
Qed.
End context_claims.

(** * Further properties of the parsers *)

Section history_parser_outcomes.
Implicit Types (l : list BaseMessage) (m : BaseMessage).
Implicit Types (acc : list ChatMessage) (ctx : option string).

Lemma accepted_at_succ i m : accepted_at (S i) m = is_turn m.
Proof. unfold accepted_at. simpl. by rewrite orb_false_r. Qed.

(** One step of the loop: an accepted message is consumed, any other
    raises at the current index. *)
Lemma history_loop_rejects i m rest acc ctx :
  accepted_at i m = false →
  _parse_chat_history_loop i (m :: rest) acc ctx
  = Err (InvalidMessageSequence (type m) i).
Proof.
  unfold accepted_at, is_turn. intros Hm.
  apply orb_false_elim in Hm as [Hturn Hsys].
  apply orb_false_elim in Hturn as [Hai Hhuman].
  simpl. by rewrite Hsys, Hai, Hhuman.
Qed.

(** What the loop returns: a history when every message is accepted at
    its index, and otherwise the error of the first one that is not. *)
Lemma history_loop_spec l : ∀ i acc ctx,
  match _parse_chat_history_loop i l acc ctx with
  | Ok _ => ∀ j m, l !! j = Some m → accepted_at (i + j) m = true
  | Err e =>
      ∃ j m, l !! j = Some m
        ∧ accepted_at (i + j) m = false
        ∧ e = InvalidMessageSequence (type m) (i + j)
        ∧ ∀ j' m', j' < j → l !! j' = Some m' → accepted_at (i + j') m' = true
  end.
Proof.
  induction l as [|m rest IH]; intros i acc ctx.
  - simpl. by intros j m.
  - destruct (accepted_at i m) eqn:Hm.
    + assert (∃ acc' ctx',
                _parse_chat_history_loop i (m :: rest) acc ctx
                = _parse_chat_history_loop (S i) rest acc' ctx') as (acc' & ctx' & ->).
      { unfold accepted_at, is_turn in Hm. simpl.
        destruct ((i =? 0) && isinstance m SystemMessageClass); [by do 2 eexists|].
        destruct (isinstance m AIMessageClass); [by do 2 eexists|].
        destruct (isinstance m HumanMessageClass); [by do 2 eexists|done]. }
      specialize (IH (S i) acc' ctx').
      destruct (_parse_chat_history_loop (S i) rest acc' ctx') as [h|e].
      * intros [|j] m0 Hj; simpl in Hj.
        -- injection Hj as <-. by rewrite Nat.add_0_r.
        -- rewrite <- Nat.add_succ_comm. by apply IH.
      * destruct IH as (j & m0 & Hj & Hbad & -> & Hfirst).
        exists (S j), m0. rewrite <- !Nat.add_succ_comm.
        repeat split; try done.
        intros [|j'] m' Hlt Hj'; simpl in Hj'.
        -- injection Hj' as <-. by rewrite Nat.add_0_r.
        -- rewrite <- Nat.add_succ_comm. apply Hfirst; [lia|done].
    + rewrite history_loop_rejects by done.
      exists 0, m. rewrite Nat.add_0_r. repeat split; try done.
      intros j' m' Hlt. lia.
Qed.

(** X1: the history parser fails exactly when some message is neither an
    ai or human message nor a system message at index 0, and the error it
    raises carries the class and the index of the first such message. *)
Theorem history_fails_at_first_invalid_message l (e : Error) :
  _parse_chat_history l = Err e
  ↔ ∃ i m, l !! i = Some m
      ∧ accepted_at i m = false
      ∧ e = InvalidMessageSequence (type m) i
      ∧ ∀ j m', j < i → l !! j = Some m' → accepted_at j m' = true.
Proof.
  pose proof (history_loop_spec l 0 [] None) as Hspec.
  unfold _parse_chat_history. cbn [Nat.add] in Hspec. split.
  - intros He. by rewrite He in Hspec.
  - intros (i & m & Hi & Hbad & -> & Hfirst).
    destruct (_parse_chat_history_loop 0 l [] None) as [h|e].
    + specialize (Hspec i m Hi). congruence.
    + destruct Hspec as (j & m0 & Hj & Hbad0 & -> & Hfirst0).
      destruct (Nat.lt_trichotomy i j) as [Hlt|[->|Hgt]].
      * specialize (Hfirst0 i m Hlt Hi). congruence.
      * by simplify_eq.
      * specialize (Hfirst j m0 Hgt Hj). congruence.
Qed.

(** A returned history, read off the input. *)
Lemma history_ok_inv l h :
  _parse_chat_history l = Ok h →
  Forall (λ m, is_turn m = true) (after_context l)
  ∧ h = {| history := turn <$> after_context l; context := leading_context l |}.
Proof.
  intros Hh.
  pose proof (history_loop_spec l 0 [] None) as Hspec.
  unfold _parse_chat_history in Hh. rewrite Hh in Hspec. cbn [Nat.add] in Hspec.
  assert (Forall (λ m, is_turn m = true) (after_context l)
          ∧ _parse_chat_history l
            = Ok {| history := turn <$> after_context l;
                    context := leading_context l |}) as [Hturns Heq].
  { destruct l as [|x rest]; [by split; [constructor|]|].
    assert (Forall (λ m, is_turn m = true) rest) as Hrest.
    { apply Forall_lookup. intros j m Hj.
      specialize (Hspec (S j) m Hj). by rewrite accepted_at_succ in Hspec. }
    specialize (Hspec 0 x eq_refl).
    destruct x; try discriminate; simpl.
    - split; [done|]. by apply history_system_then_turns.
    - split; [by constructor|]. apply history_turns_only. by constructor.
    - split; [by constructor|]. apply history_turns_only. by constructor. }
  unfold _parse_chat_history in Heq. rewrite Hh in Heq. by injection Heq as ->.
Qed.

(** X2: when the history parser returns, the context is the content of
    the leading system message (none without one), and the history holds
    one turn per remaining message, in order; so its length is the
    number of messages behind the context. *)
Theorem history_success_shape l h :
  _parse_chat_history l = Ok h →
  context h = leading_context l
  ∧ history h = turn <$> after_context l
  ∧ Forall (λ m, is_turn m = true) (after_context l)
  ∧ length (history h) = length (after_context l).
Proof.
  intros [Hturns ->]%history_ok_inv. simpl.
  repeat split; try done. by rewrite length_fmap.
Qed.

Lemma history_success_shape_witness :
  context {| history := [mkChatMessage "Hi" "user"; mkChatMessage "Hello" "bot"];
             context := None |}
  = leading_context [HumanMessage "Hi"; AIMessage "Hello"]
  ∧ [mkChatMessage "Hi" "user"; mkChatMessage "Hello" "bot"]
    = turn <$> after_context [HumanMessage "Hi"; AIMessage "Hello"]
  ∧ Forall (λ m, is_turn m = true) (after_context [HumanMessage "Hi"; AIMessage "Hello"])
  ∧ 2 = length (after_context [HumanMessage "Hi"; AIMessage "Hello"]).
Proof.
  apply (history_success_shape [HumanMessage "Hi"; AIMessage "Hello"]
           {| history := [mkChatMessage "Hi" "user"; mkChatMessage "Hello" "bot"];
              context := None |}).
  reflexivity.
Defined.
End history_parser_outcomes.

Section example_parser_outcomes.
Implicit Types (l : list BaseMessage) (m : BaseMessage).

Lemma pair_up_inputs l : Forall (λ p, is_Some (input_text p)) (pair_up l).
Proof.
  induction l as [l IH] using (induction_ltof1 _ (@length _)); unfold ltof in IH.
  destruct l as [|h [|a rest]]; simpl; try constructor.
  - by eexists.
  - apply IH. simpl. lia.
Qed.

(** X3: when the example parser returns, the list had even length and the
    expected class at every offset, the result is the list taken two
    messages at a time, and no pair is left without its input text. *)
Theorem examples_success_shape l (pairs : list InputOutputTextPair) :
  _parse_examples l = Ok pairs →
  length l mod 2 = 0
  ∧ (∀ i m, l !! i = Some m →
       isinstance m (if i mod 2 =? 0 then HumanMessageClass else AIMessageClass) = true)
  ∧ pairs = pair_up l
  ∧ 2 * length pairs = length l
  ∧ Forall (λ p, is_Some (input_text p)) pairs.
Proof.
  intros Hok.
  destruct (parity_cases (length l)) as [Hlen|Hlen].
  2:{ by rewrite parse_examples_odd in Hok. }
  rewrite parse_examples_even in Hok by done.
  pose proof (examples_loop_spec l 0 [] None) as Hspec.
  rewrite Hok in Hspec. cbn [Nat.add] in Hspec.
  pose proof (Nat.div_mod_eq (length l) 2) as Hdiv. rewrite Hlen in Hdiv.
  rewrite (examples_loop_pairs (length l / 2)) in Hok; [|lia|done|done].
  injection Hok as <-.
  repeat split; try done.
  - rewrite (length_pair_up (length l / 2)); lia.
  - apply pair_up_inputs.
Qed.

Lemma examples_success_shape_witness :
  length [HumanMessage "2+2"; AIMessage "4"] mod 2 = 0
  ∧ (∀ i m, [HumanMessage "2+2"; AIMessage "4"] !! i = Some m →
       isinstance m (if i mod 2 =? 0 then HumanMessageClass else AIMessageClass) = true)
  ∧ [mkInputOutputTextPair (Some "2+2") "4"] = pair_up [HumanMessage "2+2"; AIMessage "4"]
  ∧ 2 * length [mkInputOutputTextPair (Some "2+2") "4"]
    = length [HumanMessage "2+2"; AIMessage "4"]
  ∧ Forall (λ p, is_Some (input_text p)) [mkInputOutputTextPair (Some "2+2") "4"].
Proof.
  apply (examples_success_shape [HumanMessage "2+2"; AIMessage "4"]
           [mkInputOutputTextPair (Some "2+2") "4"]).
  reflexivity.
Defined.

(** X4: the role error of the example parser names the first offending
    offset: every message before it has the class expected at its
    offset, also when later messages are wrong too. *)
Theorem examples_error_is_first_offender l (expected actual : MessageClass) (i : nat) :
  _parse_examples l = Err (InvalidExampleRole expected actual i) →
  i < length l
  ∧ ∀ j m, j < i → l !! j = Some m →
      isinstance m (if j mod 2 =? 0 then HumanMessageClass else AIMessageClass) = true.
Proof.
  intros Herr.
  destruct (parity_cases (length l)) as [Hlen|Hlen].
  2:{ by rewrite parse_examples_odd in Herr. }
  rewrite parse_examples_even in Herr by done.
  pose proof (examples_loop_spec l 0 [] None) as Hspec.
  rewrite Herr in Hspec. cbn [Nat.add] in Hspec.
  destruct Hspec as (j & m & Hj & _ & [= _ _ ->] & Hfirst).
  split; [by eapply lookup_lt_Some|done].
Qed.

Lemma examples_error_is_first_offender_witness :
  2 < length [HumanMessage "a"; AIMessage "b"; AIMessage "c"; SystemMessage "d"]
  ∧ ∀ j m, j < 2 →
      [HumanMessage "a"; AIMessage "b"; AIMessage "c"; SystemMessage "d"] !! j = Some m →
      isinstance m (if j mod 2 =? 0 then HumanMessageClass else AIMessageClass) = true.
Proof.
  apply (examples_error_is_first_offender
           [HumanMessage "a"; AIMessage "b"; AIMessage "c"; SystemMessage "d"]
           HumanMessageClass AIMessageClass 2).
  reflexivity.
Defined.
End example_parser_outcomes.

(** * Further properties of the orchestrator *)

Section orchestrator_order.
Variable self : ChatVertexAI.
Implicit Types (messages : list BaseMessage) (stop : option (list string)).
Implicit Types (run_manager : option CallbackManagerForLLMRun).
Implicit Types (kwargs : Params) (log : list Event).


(** A non-empty list of example messages is parsed and stored. *)
Lemma call_params_examples kwargs (ex : list BaseMessage) :
  kwargs !! "examples" = Some (VMessages ex) →
  ex ≠ [] →
  call_params self kwargs
  = match _parse_examples ex with
    | Ok pairs =>
        if repeats_keyword (written_keywords self)
             (<["examples" := VPairs pairs]> (merge_params (_default_params self) kwargs))
        then Err (TypeError "repeated keyword")
        else Ok (<["examples" := VPairs pairs]>
                   (merge_params (_default_params self) kwargs))
    | Err e => Err e
    end.
Proof.
  intros Hkw Hex. unfold call_params. rewrite Hkw. cbn zeta.
  change (default VNone (Some (VMessages ex))) with (VMessages ex).
  assert (truthy (VMessages ex) = true) as -> by by destruct ex.
  done.
Qed.

(** Both operations stop, with the log as it was, when the history or
    the options are rejected. *)
Lemma rejected_before_client messages stop run_manager stream kwargs log q e :
  last messages = Some q →
  isinstance q HumanMessageClass = true →
  _parse_chat_history (removelast messages) = Err e
  ∨ (∃ h, _parse_chat_history (removelast messages) = Ok h)
    ∧ call_params self kwargs = Err e →
  _generate self messages stop run_manager stream kwargs log = (Err e, log)
  ∧ _stream self messages stop run_manager kwargs log = (Err e, log).
Proof.
  intros Hlast Hq Hrej.
  assert (_stream self messages stop run_manager kwargs log = (Err e, log)) as Hstream.
  { rewrite (stream_run _ _ _ _ _ _ q) by done.
    destruct Hrej as [->|[[h ->] ->]]; done. }
  split; [|done].
  destruct (should_stream self stream) eqn:Hflag.
  - rewrite generate_streaming_run by done. by rewrite Hstream.
  - rewrite (generate_direct_run _ _ _ _ _ _ _ q) by done.
    destruct Hrej as [->|[[h ->] ->]]; done.
Qed.

(** X5: a conversation whose history the parser rejects makes both
    operations fail with the parser's error before the examples are
    looked at and before anything is asked of the client. *)
Theorem invalid_history_stops_before_client messages stop run_manager
    (stream : option bool) kwargs log (q : BaseMessage) (e : Error) :
  last messages = Some q →
  isinstance q HumanMessageClass = true →
  _parse_chat_history (removelast messages) = Err e →
  _generate self messages stop run_manager stream kwargs log = (Err e, log)
  ∧ _stream self messages stop run_manager kwargs log = (Err e, log).
Proof. intros Hlast Hq He. apply (rejected_before_client _ _ _ _ _ _ q); auto. Qed.

(** X6: a non-empty [examples] option the example parser rejects makes
    both operations fail with its error, after the history was accepted
    and before anything is asked of the client. *)
Theorem invalid_examples_stop_before_client messages stop run_manager
    (stream : option bool) kwargs log (q : BaseMessage) h
    (ex : list BaseMessage) (e : Error) :
  last messages = Some q →
  isinstance q HumanMessageClass = true →
  _parse_chat_history (removelast messages) = Ok h →
  kwargs !! "examples" = Some (VMessages ex) →
  ex ≠ [] →
  _parse_examples ex = Err e →
  _generate self messages stop run_manager stream kwargs log = (Err e, log)
  ∧ _stream self messages stop run_manager kwargs log = (Err e, log).
Proof.
  intros Hlast Hq Hh Hkw Hex He.
  apply (rejected_before_client _ _ _ _ _ _ q); try done.
  right. split; [by exists h|].
  rewrite (call_params_examples _ ex) by done. by rewrite He.
Qed.
End orchestrator_order.

Lemma invalid_history_stops_before_client_witness :
  run (_generate (scripted_model None false "fine" ["A"])
         [HumanMessage "a"; OtherMessage "function" "b"; HumanMessage "c"]
         None None None ∅)
  = (Err (InvalidMessageSequence (OtherMessageClass "function") 1), [])
  ∧ run (_stream (scripted_model None false "fine" ["A"])
           [HumanMessage "a"; OtherMessage "function" "b"; HumanMessage "c"]
           None None ∅)
    = (Err (InvalidMessageSequence (OtherMessageClass "function") 1), []).
Proof.
  apply (invalid_history_stops_before_client (scripted_model None false "fine" ["A"])
           [HumanMessage "a"; OtherMessage "function" "b"; HumanMessage "c"]
           None None None ∅ [] (HumanMessage "c")); reflexivity.
Defined.

Lemma invalid_examples_stop_before_client_witness :
  run (_generate (scripted_model None false "fine" ["A"]) [HumanMessage "Hi"]
         None None None {[ "examples" := VMessages [HumanMessage "2+2"] ]})
  = (Err (InvalidExampleCount 1), [])
  ∧ run (_stream (scripted_model None false "fine" ["A"]) [HumanMessage "Hi"]
           None None {[ "examples" := VMessages [HumanMessage "2+2"] ]})
    = (Err (InvalidExampleCount 1), []).
Proof.
  apply (invalid_examples_stop_before_client (scripted_model None false "fine" ["A"])
           [HumanMessage "Hi"] None None None
           {[ "examples" := VMessages [HumanMessage "2+2"] ]} []
           (HumanMessage "Hi") {| history := []; context := None |}
           [HumanMessage "2+2"]); try reflexivity.
  discriminate.
Defined.

Section orchestrator_logs.
Variable self : ChatVertexAI.
Implicit Types (messages : list BaseMessage) (stop : option (list string)).
Implicit Types (run_manager : option CallbackManagerForLLMRun).
Implicit Types (kwargs : Params) (log : list Event).

Lemma token_events_tokens stop run_manager responses :
  token_events stop run_manager responses
  = on_llm_new_token
    <$> (if run_manager is Some _
         then (λ r, _enforce_stop_words (text r) stop) <$> responses else []).
Proof.
  unfold token_events. destruct run_manager; [|done].
  by rewrite <- list_fmap_compose.
Qed.

(** The log of a run of [_stream] from an empty log: nothing, the opening
    of a session, or the opening, the streamed send and the tokens. *)
Lemma stream_log_shape messages stop run_manager kwargs :
  snd (run (_stream self messages stop run_manager kwargs)) = []
  ∨ ∃ q h params,
      last messages = Some q
      ∧ _parse_chat_history (removelast messages) = Ok h
      ∧ call_params self kwargs = Ok params
      ∧ (snd (run (_stream self messages stop run_manager kwargs))
         = [start_chat_call (context_keyword self h) (history h) params]
         ∨ ∃ tokens,
             snd (run (_stream self messages stop run_manager kwargs))
             = start_chat_call (context_keyword self h) (history h) params
               :: send_message_streaming_call (content q) params
               :: (on_llm_new_token <$> tokens)).
Proof.
  unfold run.
  destruct (last messages) as [q|] eqn:Hlast.
  2:{ left. unfold _stream. by rewrite Hlast. }
  destruct (isinstance q HumanMessageClass) eqn:Hq.
  2:{ left. by rewrite (stream_last_not_human _ _ _ _ _ _ q). }
  rewrite (stream_run _ _ _ _ _ _ q) by done.
  destruct (_parse_chat_history _) as [h|e]; [|by left].
  destruct (call_params self kwargs) as [params|e]; [|by left].
  right. exists q, h, params. repeat split; try done. cbn zeta.
  destruct (start_chat _ _ _ _) as [chat|e]; [|by left].
  right. destruct (send_message_streaming _ _ _) as [responses|e].
  - rewrite token_events_tokens. by eexists.
  - by exists [].
Qed.

(** The same for [_generate]; which send follows depends on the flag. *)
Lemma generate_log_shape messages stop run_manager stream kwargs :
  snd (run (_generate self messages stop run_manager stream kwargs)) = []
  ∨ ∃ q h params,
      last messages = Some q
      ∧ _parse_chat_history (removelast messages) = Ok h
      ∧ call_params self kwargs = Ok params
      ∧ (snd (run (_generate self messages stop run_manager stream kwargs))
         = [start_chat_call (context_keyword self h) (history h) params]
         ∨ (should_stream self stream = false
            ∧ snd (run (_generate self messages stop run_manager stream kwargs))
              = [start_chat_call (context_keyword self h) (history h) params;
                 send_message_call (content q) ∅])
         ∨ (should_stream self stream = true
            ∧ ∃ tokens,
                snd (run (_generate self messages stop run_manager stream kwargs))
                = start_chat_call (context_keyword self h) (history h) params
                  :: send_message_streaming_call (content q) params
                  :: (on_llm_new_token <$> tokens))).
Proof.
  destruct (should_stream self stream) eqn:Hflag.
  { unfold run. rewrite generate_streaming_log by done.
    destruct (stream_log_shape messages stop run_manager kwargs)
      as [Hnil|(q & h & params & Hlast & Hh & Hparams & [Hone|Htwo])];
      [by left|right; exists q, h, params; repeat split; try done..].
    - by left.
    - right. right. done. }
  unfold run.
  destruct (last messages) as [q|] eqn:Hlast.
  2:{ left. unfold _generate. unfold should_stream in Hflag. by rewrite Hflag, Hlast. }
  destruct (isinstance q HumanMessageClass) eqn:Hq.
  2:{ left. by rewrite (generate_last_not_human _ _ _ _ _ _ _ q). }
  rewrite (generate_direct_run _ _ _ _ _ _ _ q) by done.
  destruct (_parse_chat_history _) as [h|e]; [|by left].
  destruct (call_params self kwargs) as [params|e]; [|by left].
  right. exists q, h, params. repeat split; try done. cbn zeta.
  destruct (start_chat _ _ _ _) as [chat|e]; [|by left].
  right. left. by destruct (send_message _ _ _).
Qed.

Lemma count_tokens (p : Event → bool) (tokens : list string) :
  (∀ t, p (on_llm_new_token t) = false) →
  count_events p (on_llm_new_token <$> tokens) = 0.
Proof.
  intros Hp. unfold count_events.
  induction tokens as [|t rest IH]; [done|]. simpl. by rewrite Hp.
Qed.

Lemma count_opened_sent_tokens (p : Event → bool) (opened sent : Event)
    (tokens : list string) :
  (∀ t, p (on_llm_new_token t) = false) →
  count_events p (opened :: sent :: (on_llm_new_token <$> tokens))
  = (if p opened then 1 else 0) + (if p sent then 1 else 0).
Proof.
  intros Hp. pose proof (count_tokens p tokens Hp) as Htokens.
  unfold count_events in *. cbn [List.filter].
  destruct (p opened), (p sent); cbn [length]; lia.
Qed.

(** X8: the history a session is opened with never holds the question:
    it is the turns of all messages but the last, behind a leading
    system message if there is one, and the context is that message's
    content when it is not empty. *)
Theorem session_history_excludes_question messages stop run_manager
    (stream : option bool) kwargs ctx (hist : list ChatMessage) (params : Params) :
  start_chat_call ctx hist params
    ∈ snd (run (_generate self messages stop run_manager stream kwargs))
  ∨ start_chat_call ctx hist params
      ∈ snd (run (_stream self messages stop run_manager kwargs)) →
  hist = turn <$> after_context (removelast messages)
  ∧ length hist = length (after_context (removelast messages))
  ∧ (is_codey_model self = false →
     ctx = Some (match leading_context (removelast messages) with
                 | Some (String a c) => Some (String a c)
                 | _ => None
                 end)).
Proof.
  intros Hin.
  assert (∃ h, _parse_chat_history (removelast messages) = Ok h
               ∧ ctx = context_keyword self h ∧ hist = history h)
    as (h & Hh & -> & ->).
  { destruct Hin as [Hin|Hin].
    - apply generate_opened in Hin as (h & ? & ? & ? & _). by exists h.
    - apply stream_opened in Hin as (h & ? & ? & ? & _). by exists h. }
  apply history_ok_inv in Hh as [_ ->]. simpl.
  repeat split; [by rewrite length_fmap|].
  intros Hcodey. unfold context_keyword, session_context. rewrite Hcodey. simpl.
  by destruct (leading_context _) as [[|a c]|].
Qed.

(** X9: the non-streaming path does not use the callback manager and
    never streams: the run is the same with and without a manager, no
    token is reported, and no streamed send is logged. *)
Theorem non_streaming_ignores_run_manager messages stop run_manager
    (stream : option bool) kwargs :
  should_stream self stream = false →
  (∀ log, _generate self messages stop run_manager stream kwargs log
          = _generate self messages stop None stream kwargs log)
  ∧ reported_tokens (snd (run (_generate self messages stop run_manager stream kwargs)))
    = []
  ∧ ∀ t kw, send_message_streaming_call t kw
            ∉ snd (run (_generate self messages stop run_manager stream kwargs)).
Proof.
  intros Hflag. split.
  { intros log. unfold _generate. unfold should_stream in Hflag. by rewrite Hflag. }
  destruct (generate_log_shape messages stop run_manager stream kwargs)
    as [->|(q & h & params & _ & _ & _ & [->|[[_ ->]|[Hflag' _]]])];
    [| | |congruence]; (split; [done|]); intros t kw Hin;
    repeat (apply elem_of_cons in Hin as [?|Hin]; [done|]);
    by apply elem_of_nil in Hin.
Qed.

(** X10: each call opens at most one session and sends at most one
    message, on either operation and for every input. *)
Theorem at_most_one_session_and_send messages stop run_manager
    (stream : option bool) kwargs :
  count_events is_start_chat
    (snd (run (_generate self messages stop run_manager stream kwargs))) ≤ 1
  ∧ count_events is_send
      (snd (run (_generate self messages stop run_manager stream kwargs))) ≤ 1
  ∧ count_events is_start_chat
      (snd (run (_stream self messages stop run_manager kwargs))) ≤ 1
  ∧ count_events is_send
      (snd (run (_stream self messages stop run_manager kwargs))) ≤ 1.
Proof.
  destruct (generate_log_shape messages stop run_manager stream kwargs)
    as [->|(q & h & params & _ & _ & _ & [->|[[_ ->]|[_ [tokens ->]]]])];
  destruct (stream_log_shape messages stop run_manager kwargs)
    as [->|(q' & h' & params' & _ & _ & _ & [->|[tokens' ->]])];
  rewrite ?count_opened_sent_tokens by done;
  unfold count_events; simpl; repeat split; lia.
Qed.
End orchestrator_logs.

Lemma session_history_excludes_question_witness :
  [mkChatMessage "Hi" "user"; mkChatMessage "Hello" "bot"]
  = turn <$> after_context (removelast terse_conversation)
  ∧ length [mkChatMessage "Hi" "user"; mkChatMessage "Hello" "bot"]
    = length (after_context (removelast terse_conversation))
  ∧ (is_codey_model (scripted_model None false "fine" ["A"]) = false →
     Some (Some "You are terse")
     = Some (match leading_context (removelast terse_conversation) with
             | Some (String a c) => Some (String a c)
             | _ => None
             end)).
Proof.
  apply (session_history_excludes_question (scripted_model None false "fine" ["A"])
           terse_conversation None None (Some false) ∅
           (Some (Some "You are terse"))
           [mkChatMessage "Hi" "user"; mkChatMessage "Hello" "bot"]
           {[ "max_output_tokens" := VInt 128 ]}).
  right. vm_compute. apply list_elem_of_here.
Defined.

Lemma non_streaming_ignores_run_manager_witness :
  reported_tokens
    (snd (run (_generate (scripted_model (Some true) false "fine" ["A"])
                 terse_conversation None (Some callback_manager) (Some false) ∅)))
  = [].
Proof.
  apply (non_streaming_ignores_run_manager (scripted_model (Some true) false "fine" ["A"])
           terse_conversation None (Some callback_manager) (Some false) ∅).
  reflexivity.
Defined.

Section orchestrator_results.
Variable self : ChatVertexAI.
Implicit Types (messages : list BaseMessage) (stop : option (list string)).
Implicit Types (run_manager : option CallbackManagerForLLMRun).
Implicit Types (kwargs : Params) (log : list Event).

Lemma reported_tokens_of_tokens (tokens : list string) :
  reported_tokens (on_llm_new_token <$> tokens) = tokens.
Proof.
  unfold reported_tokens. induction tokens as [|t rest IH]; [done|].
  simpl. f_equal. exact IH.
Qed.

Lemma generation_text_chunks stop (responses : list TextGenerationResponse) :
  generation_text <$> (chunk_of stop <$> responses)
  = (λ r, _enforce_stop_words (text r) stop) <$> responses.
Proof. by rewrite <- list_fmap_compose. Qed.

(** X11: on a successful run of [_stream] with a callback manager the
    tokens reported are, in order, the texts of the chunks yielded;
    without a manager nothing is reported. *)
Theorem reported_tokens_are_chunk_texts messages stop run_manager kwargs
    (chunks : list Generation) :
  fst (run (_stream self messages stop run_manager kwargs)) = Ok chunks →
  reported_tokens (snd (run (_stream self messages stop run_manager kwargs)))
  = if run_manager is Some _ then generation_text <$> chunks else [].
Proof.
  unfold run.
  destruct (last messages) as [q|] eqn:Hlast.
  2:{ unfold _stream. by rewrite Hlast. }
  destruct (isinstance q HumanMessageClass) eqn:Hq.
  2:{ by rewrite (stream_last_not_human _ _ _ _ _ _ q). }
  rewrite (stream_run _ _ _ _ _ _ q) by done.
  destruct (_parse_chat_history _) as [h|e]; [|done].
  destruct (call_params self kwargs) as [params|e]; [|done]. cbn zeta.
  destruct (start_chat _ _ _ _) as [chat|e]; [|done].
  destruct (send_message_streaming _ _ _) as [[responses [e|]]|e]; [done| |done].
  unfold stream_outcome. cbn [fst snd stream_responses stream_failure].
  intros [= <-].
  rewrite token_events_tokens. cbn [app].
  change (reported_tokens (?a :: ?b :: ?l)) with (reported_tokens l).
  rewrite reported_tokens_of_tokens, generation_text_chunks. done.
Qed.

(** X12: when [start_chat] fails, both operations fail with the client's
    error as it is, and the log holds the attempt to open the session
    and nothing else: no message is sent. *)
Theorem refused_session_sends_nothing messages stop run_manager
    (stream : option bool) kwargs log (q : BaseMessage) h (params : Params) (e : Error) :
  last messages = Some q →
  isinstance q HumanMessageClass = true →
  _parse_chat_history (removelast messages) = Ok h →
  call_params self kwargs = Ok params →
  start_chat (client self) (context_keyword self h) (history h) params = Err e →
  _generate self messages stop run_manager stream kwargs log
  = (Err e, log ++ [start_chat_call (context_keyword self h) (history h) params])
  ∧ _stream self messages stop run_manager kwargs log
    = (Err e, log ++ [start_chat_call (context_keyword self h) (history h) params]).
Proof.
  intros Hlast Hq Hh Hparams Hstart.
  assert (_stream self messages stop run_manager kwargs log
          = (Err e, log ++ [start_chat_call (context_keyword self h) (history h) params]))
    as Hstream.
  { rewrite (stream_run _ _ _ _ _ _ q) by done.
    rewrite Hh, Hparams. cbn zeta. by rewrite Hstart. }
  split; [|done].
  destruct (should_stream self stream) eqn:Hflag.
  - rewrite generate_streaming_run by done. by rewrite Hstream.
  - rewrite (generate_direct_run _ _ _ _ _ _ _ q) by done.
    rewrite Hh, Hparams. cbn zeta. by rewrite Hstart.
Qed.

(** X14: a successful non-streaming call returns exactly one generation,
    a plain ai message. *)
Theorem non_streaming_returns_one_generation messages stop run_manager
    (stream : option bool) kwargs (result : ChatResult) :
  should_stream self stream = false →
  fst (run (_generate self messages stop run_manager stream kwargs)) = Ok result →
  ∃ t, generations result = [ChatGeneration (AIMessage t)].
Proof.
  intros Hflag. unfold run.
  destruct (last messages) as [q|] eqn:Hlast.
  2:{ apply last_None in Hlast as ->. by rewrite generate_empty. }
  destruct (isinstance q HumanMessageClass) eqn:Hq.
  2:{ by rewrite (generate_last_not_human _ _ _ _ _ _ _ q). }
  rewrite (generate_direct_run _ _ _ _ _ _ _ q) by done.
  destruct (_parse_chat_history _) as [h|e]; [|done].
  destruct (call_params self kwargs) as [params|e]; [|done]. cbn zeta.
  destruct (start_chat _ _ _ _) as [chat|e]; [|done].
  destruct (send_message _ _ _) as [response|e]; [|done].
  intros [= <-]. by eexists.
Qed.

(** X15: a streaming call of [_generate] that succeeds returns one
    generation per response of the session, in order, each a chunk; a
    session that streams nothing gives a result without generations. *)
Theorem streaming_returns_one_generation_per_response messages stop run_manager
    (stream : option bool) kwargs (result : ChatResult) :
  should_stream self stream = true →
  fst (run (_generate self messages stop run_manager stream kwargs)) = Ok result →
  ∃ q h params chat responses,
    last messages = Some q
    ∧ _parse_chat_history (removelast messages) = Ok h
    ∧ call_params self kwargs = Ok params
    ∧ start_chat (client self) (context_keyword self h) (history h) params = Ok chat
    ∧ send_message_streaming chat (content q) params
      = Ok {| stream_responses := responses; stream_failure := None |}
    ∧ generations result = chunk_of stop <$> responses
    ∧ length (generations result) = length responses.
Proof.
  intros Hflag. unfold run. rewrite generate_streaming_run by done.
  destruct (last messages) as [q|] eqn:Hlast.
  2:{ unfold _stream. by rewrite Hlast. }
  destruct (isinstance q HumanMessageClass) eqn:Hq.
  2:{ by rewrite (stream_last_not_human _ _ _ _ _ _ q). }
  rewrite (stream_run _ _ _ _ _ _ q) by done.
  destruct (_parse_chat_history _) as [h|e] eqn:Hh; [|done].
  destruct (call_params self kwargs) as [params|e] eqn:Hparams; [|done]. cbn zeta.
  destruct (start_chat _ _ _ _) as [chat|e] eqn:Hstart; [|done].
  destruct (send_message_streaming _ _ _) as [[responses [e|]]|e] eqn:Hsend;
    [done| |done].
  intros [= <-]. exists q, h, params, chat, responses.
  repeat split; try done. simpl. by rewrite length_fmap.
Qed.
End orchestrator_results.

Lemma reported_tokens_are_chunk_texts_witness :
  reported_tokens
    (snd (run (_stream (scripted_model None false "fine" ["Hello wor"; "ld, goodbye"])
                 terse_conversation (Some ["goodbye"]) (Some callback_manager) ∅)))
  = generation_text <$> [ChatGenerationChunk (AIMessageChunk "Hello wor");
                         ChatGenerationChunk (AIMessageChunk "ld, ")].
Proof.
  apply (reported_tokens_are_chunk_texts
           (scripted_model None false "fine" ["Hello wor"; "ld, goodbye"])
           terse_conversation (Some ["goodbye"]) (Some callback_manager) ∅).
  vm_compute. reflexivity.
Defined.

Lemma refused_session_sends_nothing_witness :
  run (_generate (refusing_model "quota") [HumanMessage "Hi"] None None None ∅)
  = (Err (ClientError "quota"), [start_chat_call (Some None) [] ∅])
  ∧ run (_stream (refusing_model "quota") [HumanMessage "Hi"] None None ∅)
    = (Err (ClientError "quota"), [start_chat_call (Some None) [] ∅]).
Proof.
  apply (refused_session_sends_nothing (refusing_model "quota") [HumanMessage "Hi"]
           None None None ∅ [] (HumanMessage "Hi")
           {| history := []; context := None |} ∅ (ClientError "quota"));
    vm_compute; reflexivity.
Defined.

Lemma non_streaming_returns_one_generation_witness :
  ∃ t, generations (mkChatResult [ChatGeneration (AIMessage "fine")])
       = [ChatGeneration (AIMessage t)].
Proof.
  apply (non_streaming_returns_one_generation (scripted_model (Some true) false "fine" ["A"])
           terse_conversation None None (Some false) ∅
           (mkChatResult [ChatGeneration (AIMessage "fine")])).
  - reflexivity.
  - vm_compute. reflexivity.
Defined.

Lemma streaming_returns_one_generation_per_response_witness :
  ∃ q h params chat responses,
    last [HumanMessage "Hi"] = Some q
    ∧ _parse_chat_history (removelast [HumanMessage "Hi"]) = Ok h
    ∧ call_params (scripted_model (Some true) false "fine" []) ∅ = Ok params
    ∧ start_chat (client (scripted_model (Some true) false "fine" []))
        (context_keyword (scripted_model (Some true) false "fine" []) h)
        (history h) params = Ok chat
    ∧ send_message_streaming chat (content q) params
      = Ok {| stream_responses := responses; stream_failure := None |}
    ∧ generations (mkChatResult []) = chunk_of None <$> responses
    ∧ length (generations (mkChatResult [])) = length responses.
Proof.
  apply (streaming_returns_one_generation_per_response
           (scripted_model (Some true) false "fine" [])
           [HumanMessage "Hi"] None None None ∅ (mkChatResult [])).
  - reflexivity.
  - vm_compute. reflexivity.
Defined.

Section examples_option.
Variable self : ChatVertexAI.
Implicit Types (messages : list BaseMessage) (stop : option (list string)).
Implicit Types (run_manager : option CallbackManagerForLLMRun).
Implicit Types (kwargs : Params).

Lemma parse_examples_ok_pairs (l : list BaseMessage) (pairs : list InputOutputTextPair) :
  _parse_examples l = Ok pairs → pairs = pair_up l.
Proof.
  intros Hok.
  destruct (parity_cases (length l)) as [Hlen|Hlen].
  2:{ by rewrite parse_examples_odd in Hok. }
  rewrite parse_examples_even in Hok by done.
  pose proof (examples_loop_spec l 0 [] None) as Hspec.
  rewrite Hok in Hspec.
  pose proof (Nat.div_mod_eq (length l) 2) as Hdiv. rewrite Hlen in Hdiv.
  rewrite (examples_loop_pairs (length l / 2)) in Hok; [|lia|done|done].
  by injection Hok as <-.
Qed.

Lemma opened_params messages stop run_manager (stream : option bool) kwargs
    ctx (hist : list ChatMessage) (params : Params) :
  start_chat_call ctx hist params
    ∈ snd (run (_generate self messages stop run_manager stream kwargs))
  ∨ start_chat_call ctx hist params
      ∈ snd (run (_stream self messages stop run_manager kwargs)) →
  call_params self kwargs = Ok params.
Proof.
  intros [Hin|Hin].
  - by apply generate_opened in Hin as (h & _ & _ & _ & ?).
  - by apply stream_opened in Hin as (h & _ & _ & _ & ?).
Qed.


(** X17: a non-empty [examples] option that parses reaches the client as
    the list of its input/output pairs, stored under [examples] in place
    of the messages; every other key is the merge of defaults and
    options. *)
Theorem parsed_examples_replace_messages messages stop run_manager
    (stream : option bool) kwargs ctx (hist : list ChatMessage) (params : Params)
    (ex : list BaseMessage) :
  kwargs !! "examples" = Some (VMessages ex) →
  ex ≠ [] →
  start_chat_call ctx hist params
    ∈ snd (run (_generate self messages stop run_manager stream kwargs))
  ∨ start_chat_call ctx hist params
      ∈ snd (run (_stream self messages stop run_manager kwargs)) →
  _parse_examples ex = Ok (pair_up ex)
  ∧ params !! "examples" = Some (VPairs (pair_up ex))
  ∧ ∀ k : string, k ≠ "examples" → params !! k = (kwargs ∪ _default_params self) !! k.
Proof.
  intros Hkw Hex Hin%opened_params.
  rewrite (call_params_examples _ _ ex) in Hin by done.
  destruct (_parse_examples ex) as [pairs|e] eqn:Hparse; [|done].
  destruct (repeats_keyword _ _); [done|].
  apply parse_examples_ok_pairs in Hparse as ->. injection Hin as <-.
  split; [done|]. split.
  - apply lookup_insert_eq.
  - intros k Hk. by rewrite lookup_insert_ne.
Qed.
End examples_option.


Lemma parsed_examples_replace_messages_witness :
  _parse_examples [HumanMessage "2+2"; AIMessage "4"]
  = Ok (pair_up [HumanMessage "2+2"; AIMessage "4"])
  ∧ (<["examples" := VPairs [mkInputOutputTextPair (Some "2+2") "4"]]>
       ({[ "examples" := VMessages [HumanMessage "2+2"; AIMessage "4"] ]}
        ∪ _default_params (scripted_model None false "fine" ["A"])) : Params)
    !! "examples"
    = Some (VPairs (pair_up [HumanMessage "2+2"; AIMessage "4"]))
  ∧ ∀ k : string, k ≠ "examples" →
      (<["examples" := VPairs [mkInputOutputTextPair (Some "2+2") "4"]]>
         ({[ "examples" := VMessages [HumanMessage "2+2"; AIMessage "4"] ]}
          ∪ _default_params (scripted_model None false "fine" ["A"])) : Params) !! k
      = (({[ "examples" := VMessages [HumanMessage "2+2"; AIMessage "4"] ]} : Params)
         ∪ _default_params (scripted_model None false "fine" ["A"])) !! k.
Proof.
  apply (parsed_examples_replace_messages (scripted_model None false "fine" ["A"])
           [HumanMessage "Hi"] None None (Some false)
           {[ "examples" := VMessages [HumanMessage "2+2"; AIMessage "4"] ]}
           (Some None) []
           (<["examples" := VPairs [mkInputOutputTextPair (Some "2+2") "4"]]>
              ({[ "examples" := VMessages [HumanMessage "2+2"; AIMessage "4"] ]}
               ∪ _default_params (scripted_model None false "fine" ["A"])))
           [HumanMessage "2+2"; AIMessage "4"]).
  - reflexivity.
  - discriminate.
  - right. vm_compute. apply list_elem_of_here.
Defined.

(** * The session a conversation opens *)

Section opened_session.
Variable self : ChatVertexAI.
Implicit Types (messages : list BaseMessage) (stop : option (list string)).
Implicit Types (run_manager : option CallbackManagerForLLMRun).
Implicit Types (kwargs : Params) (log : list Event).

(** The log of [_generate] on a conversation whose history and options
    are accepted: the session is opened, and the question is sent if the
    client answered with a session. *)
Lemma generate_opens messages stop run_manager stream kwargs q h (params : Params) :
  last messages = Some q →
  isinstance q HumanMessageClass = true →
  _parse_chat_history (removelast messages) = Ok h →
  call_params self kwargs = Ok params →
  snd (run (_generate self messages stop run_manager stream kwargs))
  = start_chat_call (context_keyword self h) (history h) params
    :: after_opening self stop run_manager stream (content q) params
         (start_chat (client self) (context_keyword self h) (history h) params).
Proof.
  intros Hlast Hq Hh Hparams. unfold run, after_opening.
  destruct (should_stream self stream) eqn:Hflag.
  - rewrite generate_streaming_log by done.
    rewrite (stream_run _ _ _ _ _ _ q) by done. rewrite Hh, Hparams. cbn zeta.
    destruct (start_chat _ _ _ _) as [chat|e]; [|done].
    by destruct (send_message_streaming _ _ _).
  - rewrite (generate_direct_run _ _ _ _ _ _ _ q) by done.
    rewrite Hh, Hparams. cbn zeta.
    destruct (start_chat _ _ _ _) as [chat|e]; [|done].
    by destruct (send_message _ _ _).
Qed.

(** The same for [_stream]. *)
Lemma stream_opens messages stop run_manager kwargs q h (params : Params) :
  last messages = Some q →
  isinstance q HumanMessageClass = true →
  _parse_chat_history (removelast messages) = Ok h →
  call_params self kwargs = Ok params →
  ∃ tail,
    snd (run (_stream self messages stop run_manager kwargs))
    = start_chat_call (context_keyword self h) (history h) params :: tail.
Proof.
  intros Hlast Hq Hh Hparams. unfold run.
  rewrite (stream_run _ _ _ _ _ _ q) by done. rewrite Hh, Hparams. cbn zeta.
  destruct (start_chat _ _ _ _) as [chat|e]; [|by eexists].
  destruct (send_message_streaming _ _ _); by eexists.
Qed.

(** Two conversations with the same question whose histories parse to the
    same turns and the same session context run alike. *)
Lemma stream_congruence messages messages' stop run_manager kwargs log q h h' :
  last messages = Some q →
  last messages' = Some q →
  _parse_chat_history (removelast messages) = Ok h →
  _parse_chat_history (removelast messages') = Ok h' →
  history h = history h' →
  session_context h = session_context h' →
  _stream self messages stop run_manager kwargs log
  = _stream self messages' stop run_manager kwargs log.
Proof.
  intros Hlast Hlast' Hh Hh' Hhist Hctx.
  destruct (isinstance q HumanMessageClass) eqn:Hq.
  2:{ by rewrite !(stream_last_not_human _ _ _ _ _ _ q). }
  rewrite !(stream_run _ _ _ _ _ _ q) by done.
  rewrite Hh, Hh'. unfold context_keyword. by rewrite Hhist, Hctx.
Qed.

Lemma generate_congruence messages messages' stop run_manager stream kwargs log
    q h h' :
  last messages = Some q →
  last messages' = Some q →
  _parse_chat_history (removelast messages) = Ok h →
  _parse_chat_history (removelast messages') = Ok h' →
  history h = history h' →
  session_context h = session_context h' →
  _generate self messages stop run_manager stream kwargs log
  = _generate self messages' stop run_manager stream kwargs log.
Proof.
  intros Hlast Hlast' Hh Hh' Hhist Hctx.
  destruct (should_stream self stream) eqn:Hflag.
  { rewrite !generate_streaming_run by done.
    by rewrite (stream_congruence messages messages' _ _ _ _ q h h'). }
  destruct (isinstance q HumanMessageClass) eqn:Hq.
  2:{ by rewrite !(generate_last_not_human _ _ _ _ _ _ _ q). }
  rewrite !(generate_direct_run _ _ _ _ _ _ _ q) by done.
  rewrite Hh, Hh'. unfold context_keyword. by rewrite Hhist, Hctx.
Qed.

Lemma last_question (pre : list BaseMessage) (q : BaseMessage) :
  last (pre ++ [q]) = Some q ∧ removelast (pre ++ [q]) = pre.
Proof. split; [apply last_snoc|apply removelast_last]. Qed.
End opened_session.

Section history_scenario.
Variable self : ChatVertexAI.

(** C4: for every input list, the history parser takes a leading system
    message as the context and leaves it out of the turns, and turns every
    other message, ai as bot and human as user, in input order: this is
    what it returns on a list of ai and human messages with or without a
    leading system message, and whenever it returns at all.  For the
    conversation System "You are terse", Human "Hi", AI "Hello", Human
    "How are you?" the session is opened with that context and the turns
    user "Hi", bot "Hello", and the question sent is "How are you?". *)
Theorem system_context_and_turns :
  (∀ (c : string) (rest : list BaseMessage),
     Forall (λ m, is_turn m = true) rest →
     _parse_chat_history (SystemMessage c :: rest)
     = Ok {| history := turn <$> rest; context := Some c |})
  ∧ (∀ l : list BaseMessage,
       Forall (λ m, is_turn m = true) l →
       _parse_chat_history l = Ok {| history := turn <$> l; context := None |})
  ∧ (∀ (l : list BaseMessage) h,
       _parse_chat_history l = Ok h →
       Forall (λ m, is_turn m = true) (after_context l)
       ∧ h = {| history := turn <$> after_context l; context := leading_context l |})
  ∧ (∀ (c : string), turn (AIMessage c) = mkChatMessage c "bot"
                     ∧ turn (HumanMessage c) = mkChatMessage c "user")
  ∧ _parse_chat_history (removelast terse_conversation)
    = Ok {| history := [mkChatMessage "Hi" "user"; mkChatMessage "Hello" "bot"];
            context := Some "You are terse" |}
  ∧ last terse_conversation = Some (HumanMessage "How are you?")
  ∧ (∀ stop run_manager stream kwargs params,
       is_codey_model self = false →
       call_params self kwargs = Ok params →
       snd (run (_generate self terse_conversation stop run_manager stream kwargs))
       = start_chat_call (Some (Some "You are terse"))
           [mkChatMessage "Hi" "user"; mkChatMessage "Hello" "bot"] params
         :: match start_chat (client self) (Some (Some "You are terse"))
                    [mkChatMessage "Hi" "user"; mkChatMessage "Hello" "bot"] params with
            | Err _ => []
            | Ok chat =>
                if should_stream self stream then
                  send_message_streaming_call "How are you?" params
                  :: match send_message_streaming chat "How are you?" params with
                     | Ok answer =>
                         token_events stop run_manager (stream_responses answer)
                     | Err _ => []
                     end
                else [send_message_call "How are you?" ∅]
            end).
Proof.
  split; [|split; [|split; [|split; [|split; [|split]]]]]; try done.
  - intros c rest. apply history_system_then_turns.
  - intros l. apply history_turns_only.
  - intros l h. apply history_ok_inv.
  - intros stop run_manager stream kwargs params Hcodey Hparams.
    rewrite (generate_opens self terse_conversation _ _ _ _
               (HumanMessage "How are you?")
               {| history := [mkChatMessage "Hi" "user"; mkChatMessage "Hello" "bot"];
                  context := Some "You are terse" |} params); try done.
    unfold context_keyword, after_opening. by rewrite Hcodey.
Qed.
End history_scenario.

Lemma system_context_and_turns_witness :
  _parse_chat_history [SystemMessage "Be brief"; AIMessage "Welcome"; HumanMessage "Thanks"]
  = Ok {| history := turn <$> [AIMessage "Welcome"; HumanMessage "Thanks"];
          context := Some "Be brief" |}
  ∧ _parse_chat_history [HumanMessage "Hi"; AIMessage "Hello"]
    = Ok {| history := turn <$> [HumanMessage "Hi"; AIMessage "Hello"];
            context := None |}
  ∧ snd (run (_generate (scripted_model None false "fine" ["A"]) terse_conversation
                None None (Some false) ∅))
    = [start_chat_call (Some (Some "You are terse"))
         [mkChatMessage "Hi" "user"; mkChatMessage "Hello" "bot"]
         {[ "max_output_tokens" := VInt 128 ]};
       send_message_call "How are you?" ∅].
Proof.
  pose proof (system_context_and_turns (scripted_model None false "fine" ["A"]))
    as (Hsystem & Hturns & _ & _ & _ & _ & Hlog).
  split; [|split].
  - apply Hsystem. by repeat constructor.
  - apply Hturns. by repeat constructor.
  - apply (Hlog None None (Some false) ∅ {[ "max_output_tokens" := VInt 128 ]});
      vm_compute; reflexivity.
Defined.

Section empty_system_message.
Variable self : ChatVertexAI.

(** C9: a conversation that starts with a system message of empty content
    opens its session, on either operation, without a context: a chat
    model is handed [None] and not the empty string, with no option named
    context beside it, and a code model is not handed the keyword.  The
    whole run, result and log, is that of the conversation without the
    empty system message.  Whatever follows the empty system message, a
    session that is opened gets no context, and the log is that of the
    conversation without it unless that one starts with a system
    message of its own. *)
Theorem empty_system_message_gives_no_context (msgs : list BaseMessage) (q : string)
    (stop : option (list string)) (run_manager : option CallbackManagerForLLMRun)
    (stream : option bool) (kwargs params : Params) :
  Forall (λ m, is_turn m = true) msgs →
  call_params self kwargs = Ok params →
  (∃ tail,
     snd (run (_generate self (SystemMessage "" :: msgs ++ [HumanMessage q])
                 stop run_manager stream kwargs))
     = start_chat_call (if is_codey_model self then None else Some None)
         (turn <$> msgs) params :: tail)
  ∧ (∃ tail,
       snd (run (_stream self (SystemMessage "" :: msgs ++ [HumanMessage q])
                   stop run_manager kwargs))
       = start_chat_call (if is_codey_model self then None else Some None)
           (turn <$> msgs) params :: tail)
  ∧ (is_codey_model self = false → params !! "context" = None)
  ∧ run (_generate self (SystemMessage "" :: msgs ++ [HumanMessage q])
           stop run_manager stream kwargs)
    = run (_generate self (msgs ++ [HumanMessage q]) stop run_manager stream kwargs)
  ∧ run (_stream self (SystemMessage "" :: msgs ++ [HumanMessage q])
           stop run_manager kwargs)
    = run (_stream self (msgs ++ [HumanMessage q]) stop run_manager kwargs)
  ∧ (∀ (others : list BaseMessage) ctx (hist : list ChatMessage) (opened : Params),
       start_chat_call ctx hist opened
         ∈ snd (run (_generate self (SystemMessage "" :: others) stop run_manager
                       stream kwargs))
       ∨ start_chat_call ctx hist opened
           ∈ snd (run (_stream self (SystemMessage "" :: others) stop run_manager
                         kwargs)) →
       ctx = if is_codey_model self then None else Some None)
  ∧ (∀ others : list BaseMessage,
       (∀ m, head others = Some m → isinstance m SystemMessageClass = false) →
       snd (run (_generate self (SystemMessage "" :: others) stop run_manager
                   stream kwargs))
       = snd (run (_generate self others stop run_manager stream kwargs))
       ∧ snd (run (_stream self (SystemMessage "" :: others) stop run_manager kwargs))
         = snd (run (_stream self others stop run_manager kwargs))).
Proof.
  intros Hmsgs Hparams.
  destruct (last_question (SystemMessage "" :: msgs) (HumanMessage q))
    as [Hlast Hinit].
  destruct (last_question msgs (HumanMessage q)) as [Hlast' Hinit'].
  rewrite <- app_comm_cons in Hlast, Hinit.
  pose proof (history_system_then_turns "" msgs Hmsgs) as Hh.
  pose proof (history_turns_only msgs Hmsgs) as Hh'.
  rewrite <- Hinit in Hh at 1. rewrite <- Hinit' in Hh' at 1.
  assert (context_keyword self {| history := turn <$> msgs; context := Some "" |}
          = if is_codey_model self then None else Some None) as Hctx.
  { unfold context_keyword. by destruct (is_codey_model self). }
  split; [|split; [|split; [|split; [|split; [|split]]]]].
  - eexists. rewrite (generate_opens self _ _ _ _ _ _ _ _ Hlast eq_refl Hh Hparams).
    by rewrite Hctx.
  - destruct (stream_opens self _ stop run_manager _ _ _ _ Hlast eq_refl Hh Hparams)
      as [tail Htail].
    exists tail. by rewrite Htail, Hctx.
  - intros Hcodey. apply call_params_ok_inv in Hparams as [Hrep _].
    unfold written_keywords in Hrep. rewrite Hcodey in Hrep. simpl in Hrep.
    apply orb_false_elim in Hrep as [Hrep _].
    apply bool_decide_eq_false in Hrep.
    destruct (params !! "context"); [|done]. by destruct Hrep.
  - unfold run. by eapply generate_congruence.
  - unfold run. by eapply stream_congruence.
  - intros others ctx hist opened. apply empty_system_message_opened.
  - intros others. apply empty_system_message_same_log.
Qed.
End empty_system_message.

Lemma empty_system_message_gives_no_context_witness :
  (∃ tail,
     snd (run (_generate (scripted_model None false "fine" ["A"])
                 (SystemMessage "" :: [AIMessage "Welcome"] ++ [HumanMessage "Hi"])
                 None None (Some false) ∅))
     = start_chat_call
         (if is_codey_model (scripted_model None false "fine" ["A"])
          then None else Some None)
         (turn <$> [AIMessage "Welcome"]) {[ "max_output_tokens" := VInt 128 ]}
       :: tail)
  ∧ run (_stream (scripted_model None false "fine" ["A"])
           (SystemMessage "" :: [AIMessage "Welcome"] ++ [HumanMessage "Hi"])
           None None ∅)
    = run (_stream (scripted_model None false "fine" ["A"])
             ([AIMessage "Welcome"] ++ [HumanMessage "Hi"]) None None ∅).
Proof.
  pose proof (empty_system_message_gives_no_context
                (scripted_model None false "fine" ["A"])
                [AIMessage "Welcome"] "Hi" None None (Some false) ∅
                {[ "max_output_tokens" := VInt 128 ]}) as Hempty.
  destruct Hempty as (Hgenerate & _ & _ & _ & Hstream & _).
  - by repeat constructor.
  - vm_compute. reflexivity.
  - split; [exact Hgenerate|exact Hstream].
Defined.

(** * Keywords of the session call *)

Section session_keywords.
Variable self : ChatVertexAI.
Implicit Types (messages : list BaseMessage) (stop : option (list string)).
Implicit Types (run_manager : option CallbackManagerForLLMRun).
Implicit Types (kwargs : Params) (log : list Event).

Lemma repeats_keyword_false (written : list string) (params : Params) (k : string) :
  repeats_keyword written params = false → k ∈ written → params !! k = None.
Proof.
  unfold repeats_keyword. intros Hrep Hk.
  destruct (params !! k) as [v|] eqn:Hlook; [|done].
  assert (existsb (λ k, bool_decide (is_Some (params !! k))) written = true) as Htrue.
  { apply existsb_exists. exists k. split; [by apply list_elem_of_In|].
    apply bool_decide_eq_true. by eexists. }
  congruence.
Qed.

Lemma repeats_keyword_true (written : list string) (params : Params) (k : string) :
  k ∈ written → is_Some (params !! k) → repeats_keyword written params = true.
Proof.
  intros Hk Hsome. apply existsb_exists. exists k.
  split; [by apply list_elem_of_In|]. by apply bool_decide_eq_true.
Qed.

Lemma opened_call_params messages stop run_manager (stream : option bool) kwargs
    ctx (hist : list ChatMessage) (params : Params) :
  start_chat_call ctx hist params
    ∈ snd (run (_generate self messages stop run_manager stream kwargs))
  ∨ start_chat_call ctx hist params
      ∈ snd (run (_stream self messages stop run_manager kwargs)) →
  ∃ h, ctx = context_keyword self h ∧ call_params self kwargs = Ok params.
Proof.
  intros [Hin|Hin].
  - apply generate_opened in Hin as (h & _ & ? & _ & ?). by exists h.
  - apply stream_opened in Hin as (h & _ & ? & _ & ?). by exists h.
Qed.

(** X7: the [start_chat] call writes the context keyword out exactly for
    a chat model, and then no option named context goes with it.  A code
    model is never handed the context of the conversation: the call does
    not write the keyword, and the only context that reaches the client is
    an option named context, call-time or default, passed on as it is.
    Neither kind of model is handed an option named message_history. *)
Theorem context_keyword_only_for_chat_models messages stop run_manager
    (stream : option bool) kwargs ctx (hist : list ChatMessage) (params : Params) :
  start_chat_call ctx hist params
    ∈ snd (run (_generate self messages stop run_manager stream kwargs))
  ∨ start_chat_call ctx hist params
      ∈ snd (run (_stream self messages stop run_manager kwargs)) →
  (is_codey_model self = false →
   (∃ c, ctx = Some c) ∧ params !! "context" = None)
  ∧ (is_codey_model self = true →
     ctx = None
     ∧ params !! "context" = (kwargs ∪ _default_params self) !! "context")
  ∧ params !! "message_history" = None.
Proof.
  intros (h & -> & Hparams)%opened_call_params.
  pose proof (call_params_ok_inv self _ _ Hparams) as [Hrep _].
  unfold context_keyword, written_keywords in *.
  split; [|split].
  - intros Hcodey. rewrite Hcodey in *. simpl. split; [by eexists|].
    eapply repeats_keyword_false; [done|]. apply list_elem_of_here.
  - intros Hcodey. rewrite Hcodey in *. simpl. split; [done|].
    rewrite (call_params_lookup self kwargs params "context" Hparams) by done.
    destruct (kwargs !! "context") as [v|] eqn:Hkw.
    + symmetry. by apply lookup_union_Some_l.
    + symmetry. by apply lookup_union_r.
  - eapply repeats_keyword_false; [done|].
    destruct (negb (is_codey_model self)); set_solver.
Qed.

(** X18: an option named message_history, call-time or default, stops
    both operations with a [TypeError] before the client is asked
    anything, for every model; an option named context does so for a chat
    model.  The examples, if given, were parsed before. *)
Theorem repeated_keyword_stops_before_client messages stop run_manager
    (stream : option bool) kwargs log (q : BaseMessage) h (k : string) :
  last messages = Some q →
  isinstance q HumanMessageClass = true →
  _parse_chat_history (removelast messages) = Ok h →
  (truthy (default VNone (kwargs !! "examples")) = true →
   ∃ pairs, _parse_examples_arg (default VNone (kwargs !! "examples")) = Ok pairs) →
  k = "message_history" ∨ (k = "context" ∧ is_codey_model self = false) →
  is_Some ((kwargs ∪ _default_params self) !! k) →
  _generate self messages stop run_manager stream kwargs log
  = (Err (TypeError "repeated keyword"), log)
  ∧ _stream self messages stop run_manager kwargs log
    = (Err (TypeError "repeated keyword"), log).
Proof.
  intros Hlast Hq Hh Hexamples Hk Hsome.
  apply (rejected_before_client self _ _ _ _ _ _ q); try done.
  right. split; [by exists h|].
  assert (k ∈ written_keywords self ∧ k ≠ "examples") as [Hwritten Hne].
  { unfold written_keywords.
    destruct Hk as [->|[-> ->]]; (split; [|done]);
      [destruct (negb (is_codey_model self))|]; set_solver. }
  unfold call_params. cbn zeta.
  destruct (truthy _).
  - destruct (Hexamples eq_refl) as [pairs ->].
    rewrite (repeats_keyword_true _ _ k); try done.
    by rewrite lookup_insert_ne.
  - by rewrite (repeats_keyword_true _ _ k).
Qed.
End session_keywords.

Lemma context_keyword_only_for_chat_models_witness :
  (is_codey_model (scripted_model None true "fine" ["A"]) = true →
   @None (option string) = None
   ∧ ({[ "context" := VStr "Be formal" ]}
      ∪ _default_params (scripted_model None true "fine" ["A"]) : Params) !! "context"
     = ({[ "context" := VStr "Be formal" ]}
        ∪ _default_params (scripted_model None true "fine" ["A"])) !! "context")
  ∧ ({[ "context" := VStr "Be formal" ]}
     ∪ _default_params (scripted_model None true "fine" ["A"]) : Params)
    !! "message_history" = None.
Proof.
  apply (context_keyword_only_for_chat_models (scripted_model None true "fine" ["A"])
           terse_conversation None None (Some false)
           {[ "context" := VStr "Be formal" ]} None
           [mkChatMessage "Hi" "user"; mkChatMessage "Hello" "bot"]
           ({[ "context" := VStr "Be formal" ]}
            ∪ _default_params (scripted_model None true "fine" ["A"]))).
  left. vm_compute. apply list_elem_of_here.
Defined.

Lemma repeated_keyword_stops_before_client_witness :
  run (_generate (scripted_model None false "fine" ["A"]) terse_conversation
         None None None {[ "context" := VStr "Be formal" ]})
  = (Err (TypeError "repeated keyword"), [])
  ∧ run (_stream (scripted_model None false "fine" ["A"]) terse_conversation
           None None {[ "context" := VStr "Be formal" ]})
    = (Err (TypeError "repeated keyword"), []).
Proof.
  apply (repeated_keyword_stops_before_client (scripted_model None false "fine" ["A"])
           terse_conversation None None None {[ "context" := VStr "Be formal" ]} []
           (HumanMessage "How are you?")
           {| history := [mkChatMessage "Hi" "user"; mkChatMessage "Hello" "bot"];
              context := Some "You are terse" |}
           "context"); try reflexivity.
  - vm_compute. discriminate.
  - right. by split.
  - vm_compute. by eexists.
Defined.

(** * Failures of the session *)

Section session_failures.
Variable self : ChatVertexAI.
Implicit Types (messages : list BaseMessage) (stop : option (list string)).
Implicit Types (run_manager : option CallbackManagerForLLMRun).
Implicit Types (kwargs : Params) (log : list Event).

(** X13: when the opened session fails at the send, the operation fails
    with the client's error as it is, after the opening and the send and
    nothing else.  When the send answers with a stream that fails while it
    is read, [_stream] fails with the stream's error as it is, after the
    token of every response the stream gave before was reported, in
    order. *)
Theorem failed_send_passes_error_on messages stop run_manager kwargs log
    (q : BaseMessage) h (params : Params) (chat : ChatSession) (e : Error) :
  last messages = Some q →
  isinstance q HumanMessageClass = true →
  _parse_chat_history (removelast messages) = Ok h →
  call_params self kwargs = Ok params →
  start_chat (client self) (context_keyword self h) (history h) params = Ok chat →
  (send_message chat (content q) ∅ = Err e →
   ∀ stream, should_stream self stream = false →
     _generate self messages stop run_manager stream kwargs log
     = (Err e, log ++ [start_chat_call (context_keyword self h) (history h) params;
                       send_message_call (content q) ∅]))
  ∧ (send_message_streaming chat (content q) params = Err e →
     _stream self messages stop run_manager kwargs log
     = (Err e, log ++ [start_chat_call (context_keyword self h) (history h) params;
                       send_message_streaming_call (content q) params]))
  ∧ (∀ responses,
       send_message_streaming chat (content q) params
       = Ok {| stream_responses := responses; stream_failure := Some e |} →
       _stream self messages stop run_manager kwargs log
       = (Err e, log ++ [start_chat_call (context_keyword self h) (history h) params;
                         send_message_streaming_call (content q) params]
                     ++ token_events stop run_manager responses)
       ∧ reported_tokens
           ([start_chat_call (context_keyword self h) (history h) params;
             send_message_streaming_call (content q) params]
            ++ token_events stop run_manager responses)
         = if run_manager is Some _
           then (λ r, _enforce_stop_words (text r) stop) <$> responses else []).
Proof.
  intros Hlast Hq Hh Hparams Hstart. split; [|split].
  - intros Hsend stream Hflag.
    rewrite (generate_direct_run _ _ _ _ _ _ _ q) by done.
    rewrite Hh, Hparams. cbn zeta. by rewrite Hstart, Hsend.
  - intros Hsend. rewrite (stream_run _ _ _ _ _ _ q) by done.
    rewrite Hh, Hparams. cbn zeta. by rewrite Hstart, Hsend.
  - intros responses Hsend. split.
    + rewrite (stream_run _ _ _ _ _ _ q) by done.
      rewrite Hh, Hparams. cbn zeta. by rewrite Hstart, Hsend.
    + rewrite token_events_tokens. cbn [app].
      change (reported_tokens (?a :: ?b :: ?l)) with (reported_tokens l).
      by rewrite reported_tokens_of_tokens.
Qed.
End session_failures.

Lemma failed_send_passes_error_on_witness :
  run (_generate (broken_session_model "timeout") [HumanMessage "Hi"]
         None (Some callback_manager) (Some false) ∅)
  = (Err (ClientError "timeout"),
     [start_chat_call (Some None) [] ∅; send_message_call "Hi" ∅])
  ∧ run (_stream (broken_session_model "timeout") [HumanMessage "Hi"]
           None (Some callback_manager) ∅)
    = (Err (ClientError "timeout"),
       [start_chat_call (Some None) [] ∅; send_message_streaming_call "Hi" ∅])
  ∧ run (_stream (interrupted_stream_model ["A"; "B"] "reset") [HumanMessage "Hi"]
           None (Some callback_manager) ∅)
    = (Err (ClientError "reset"),
       [start_chat_call (Some None) [] ∅; send_message_streaming_call "Hi" ∅;
        on_llm_new_token "A"; on_llm_new_token "B"]).
Proof.
  pose proof (failed_send_passes_error_on (broken_session_model "timeout")
                [HumanMessage "Hi"] None (Some callback_manager) ∅ []
                (HumanMessage "Hi") {| history := []; context := None |} ∅
                {| send_message := λ _ _, Err (ClientError "timeout");
                   send_message_streaming := λ _ _, Err (ClientError "timeout") |}
                (ClientError "timeout")
                eq_refl eq_refl eq_refl eq_refl eq_refl) as (Hsync & Hstream & _).
  pose proof (failed_send_passes_error_on (interrupted_stream_model ["A"; "B"] "reset")
                [HumanMessage "Hi"] None (Some callback_manager) ∅ []
                (HumanMessage "Hi") {| history := []; context := None |} ∅
                {| send_message := λ _ _, Err (ClientError "reset");
                   send_message_streaming := λ _ _,
                     Ok {| stream_responses := mkResponse <$> ["A"; "B"];
                           stream_failure := Some (ClientError "reset") |} |}
                (ClientError "reset")
                eq_refl eq_refl eq_refl eq_refl eq_refl) as (_ & _ & Hbroken).
  split; [|split].
  - apply (Hsync eq_refl (Some false) eq_refl).
  - apply (Hstream eq_refl).
  - apply (Hbroken (mkResponse <$> ["A"; "B"]) eq_refl).
Defined.
